(** * jsonref: lazy JSON references

    A shallow embedding of [jsonref.py] and the properties of its
    reference-resolution engine: the URI-keyed store, the JSON pointer
    walk, the dereferencer, the lazy proxy [RefObject] and the loaders.

    Python values are modelled as follows.
    - [str] is [string]; the methods the source calls on it ([lstrip],
      [split], [replace], [in]) are written out in [PyStr].
    - a parsed JSON document is [json]; a JSON object is an association
      list standing for a [dict] (keys in insertion order, looked up by
      the first match). The same type holds what the parser reads from a
      text, where an object is the list of its pairs and may repeat a
      key.
    - a loaded tree is [loaded]: JSON with [RefObject]s in it, each named
      by its address in the heap of the [world].
    - exceptions are values of [exn]; every fallible operation returns a
      [result], and stateful code runs in the monad [M] over the [world]
      (the heap of proxies, the stores of the dereferencers, what was
      printed and what was requested over HTTP).
    - [urllib], [requests] and [json] are not part of the repository: the
      development is parametric in them (classes [Urllib], [Requests],
      [JsonLib]), and in what Python does with a proxy whose reference
      is not a string (class [Runtime]); module [Sample] gives
      executable instances on which the code is run at concrete
      inputs. *)

From Stdlib Require Import ZArith Ascii String List Bool Lia.
From stdpp Require Import base option strings list gmap.

Set Warnings "-register-all".
Local Open Scope string_scope.

(** ** Exceptions and results *)

Inductive exn : Type :=
| LookupError (pointer : string)
    (* raise LookupError("Unresolvable JSON pointer: %r" % pointer):
       the message is built from the whole pointer and nothing else *)
| KeyError (key : string)
| TypeError
| RequestError
    (* any failure of requests.get(uri).json() *)
| JSONDecodeError
| NotImplementedError.

Inductive result (A : Type) : Type :=
| Ok (a : A)
| Err (e : exn).
Arguments Ok {A} a.
Arguments Err {A} e.

Definition rbind {A B} (r : result A) (k : A -> result B) : result B :=
  match r with
  | Ok a => k a
  | Err e => Err e
  end.

(** ** Python's [str] methods used by the source *)

Module PyStr.

(** [s.lstrip(c)] for a one-character set [c]. *)
Fixpoint lstrip (c : ascii) (s : string) : string :=
  match s with
  | String x s' => if Ascii.eqb x c then lstrip c s' else s
  | EmptyString => s
  end.

(** [s.split(sep)] for a one-character separator: never empty, the
    empty string splits into one empty piece. *)
Fixpoint split (sep : ascii) (s : string) : list string :=
  match s with
  | EmptyString => [EmptyString]
  | String x s' =>
      if Ascii.eqb x sep then EmptyString :: split sep s'
      else match split sep s' with
           | piece :: pieces => String x piece :: pieces
           | [] => [String x EmptyString]
           end
  end.

(** [s.startswith(p)] *)
Fixpoint startswith (p s : string) : bool :=
  match p, s with
  | EmptyString, _ => true
  | String a p', String b s' => Ascii.eqb a b && startswith p' s'
  | String _ _, EmptyString => false
  end.

(** [s.replace(old, new)] for a non-empty [old]: occurrences are
    replaced from left to right and do not overlap. [skip] counts the
    characters of a matched occurrence still to be dropped. *)
Fixpoint replace_from (old new : string) (skip : nat) (s : string) : string :=
  match s with
  | EmptyString => EmptyString
  | String c s' =>
      match skip with
      | S k => replace_from old new k s'
      | O =>
          if startswith old s
          then new +:+ replace_from old new (String.length old - 1) s'
          else String c (replace_from old new 0 s')
      end
  end.

Definition replace (old new s : string) : string := replace_from old new 0 s.

(** [sub in s] on two strings: [sub] occurs in [s]. *)
Fixpoint contains (sub s : string) : bool :=
  startswith sub s ||
  match s with
  | String _ s' => contains sub s'
  | EmptyString => false
  end.

(** [c in s] for a character. *)
Fixpoint has_char (c : ascii) (s : string) : bool :=
  match s with
  | String x s' => Ascii.eqb x c || has_char c s'
  | EmptyString => false
  end.

End PyStr.

(** ** Documents and loaded trees *)

(** A parsed JSON value. Numbers are integers here; a float behaves as
    an integer does in everything below (it is neither a container nor a
    string). *)
Inductive json : Type :=
| JNull
| JBool (b : bool)
| JNum (n : Z)
| JStr (s : string)
| JArr (items : list json)
| JObj (members : list (string * json)).

(** Address of a [RefObject] in the heap. *)
Definition addr : Type := nat.

(** What the loaders return: JSON in which objects may have been
    replaced by proxies. *)
Inductive loaded : Type :=
| LNull
| LBool (b : bool)
| LNum (n : Z)
| LStr (s : string)
| LArr (items : list loaded)
| LObj (members : list (string * loaded))
| LRef (r : addr).

(** A Python object that went through no loader, seen as a loaded tree. *)
Fixpoint raw (j : json) : loaded :=
  match j with
  | JNull => LNull
  | JBool b => LBool b
  | JNum n => LNum n
  | JStr s => LStr s
  | JArr items => LArr (map raw items)
  | JObj members => LObj (map (fun kv => (fst kv, raw (snd kv))) members)
  end.

(** [key in dct] and [dct[key]] on a dict. *)
Fixpoint dict_get {V} (key : string) (dct : list (string * V)) : option V :=
  match dct with
  | [] => None
  | (k, v) :: rest => if String.eqb k key then Some v else dict_get key rest
  end.

Definition dict_has {V} (key : string) (dct : list (string * V)) : bool :=
  match dict_get key dct with
  | Some _ => true
  | None => false
  end.

(** [dct[key] = v]: an existing key keeps its position. *)
Fixpoint dict_set {V} (key : string) (v : V) (dct : list (string * V)) : list (string * V) :=
  match dct with
  | [] => [(key, v)]
  | (k, x) :: rest =>
      if String.eqb k key then (k, v) :: rest else (k, x) :: dict_set key v rest
  end.

(** [dict(pairs)]: the pairs are assigned one after the other, so a
    repeated key keeps its first position and its last value. *)
Definition dict_of_pairs {V} (pairs : list (string * V)) : list (string * V) :=
  fold_left (fun dct kv => dict_set (fst kv) (snd kv) dct) pairs [].

(** ** The libraries the source imports *)

Class Urllib : Type := {
  (** [unquote(s)]: percent-decoding. *)
  unquote : string -> string;
  (** [urlsplit(uri).geturl()]. *)
  urlsplit_geturl : string -> string;
  (** [urldefrag(url)]: the URL without its fragment, and the fragment. *)
  urldefrag : string -> string * string;
  (** [urljoin(base, url)]; [url] is whatever the caller passes. *)
  urljoin : string -> loaded -> result loaded;
  (** [unquote] returns a string without ['%'] as it is. *)
  unquote_plain : forall s, PyStr.has_char "%" s = false -> unquote s = s;
  (** [urljoin] returns [url] as it is when [base] is empty. *)
  urljoin_no_base : forall url, urljoin "" url = Ok url
}.

Class Requests : Type := {
  (** [requests.get(uri).json()], given the requests made so far. *)
  requests_get_json : list string -> string -> result json
}.

Class JsonLib : Type := {
  (** [json.loads(text)] without a hook, every object as the pairs of
      the text, in their order: a key written twice is there twice (the
      dict the parser builds from the pairs keeps the last value). On a
      text that repeats no key this is the document [json.loads]
      returns. *)
  json_loads : string -> result json
}.

(** ** The pointer resolver *)

Section Pointer.
Context {U : Urllib}.

(** [part in items] on a list: some item equals the string [part], and
    only a string does. *)
Definition list_has_str (part : string) (items : list json) : bool :=
  existsb (fun x => match x with
                    | JStr s => String.eqb s part
                    | _ => false
                    end) items.

(** [part in document], by the type of [document]. *)
Definition py_in (part : string) (document : json) : result bool :=
  match document with
  | JObj members => Ok (dict_has part members)
  | JArr items => Ok (list_has_str part items)
  | JStr s => Ok (PyStr.contains part s)
  | JNull | JBool _ | JNum _ => Err TypeError
  end.

(** [document[part]] for a string [part]. *)
Definition py_getitem (document : json) (part : string) : result json :=
  match document with
  | JObj members =>
      match dict_get part members with
      | Some v => Ok v
      | None => Err (KeyError part)
      end
  | _ => Err TypeError
  end.

(** [unquote(pointer.lstrip("/")).split("/") if pointer else []] *)
Definition parts (pointer : string) : list string :=
  match pointer with
  | EmptyString => []
  | _ => PyStr.split "/" (unquote (PyStr.lstrip "/" pointer))
  end.

(** [part.replace("~1", "/").replace("~0", "~")] *)
Definition unescape (part : string) : string :=
  PyStr.replace "~0" "~" (PyStr.replace "~1" "/" part).

(** One turn of the [for] loop. *)
Definition step (pointer : string) (document : json) (part : string) : result json :=
  let part := unescape part in
  rbind (py_in part document) (fun present =>
    if negb present then Err (LookupError pointer)
    else py_getitem document part).

(** The [for] loop: the first exception ends it. *)
Fixpoint walk (pointer : string) (document : json) (ps : list string) : result json :=
  match ps with
  | [] => Ok document
  | part :: rest =>
      match step pointer document part with
      | Ok document' => walk pointer document' rest
      | Err e => Err e
      end
  end.

Definition resolve_pointer (document : json) (pointer : string) : result json :=
  walk pointer document (parts pointer).

End Pointer.

(** ** The world: heap, stores and traces *)

(** The fields of a [RefObject] instance. [object] starts as [None],
    which is also what JSON [null] parses to. *)
Record RefObject : Type := mkRefObject {
  ref : loaded;
  dereferenced : bool;
  object : json;
  dereferencer : nat
}.

Record world : Type := mkWorld {
  (** every [Dereferencer] instance, by address: the dict inside its
      [_URIDict] *)
  dereferencers : list (gmap string json);
  (** every [RefObject] instance, by address *)
  refobjs : list RefObject;
  (** the lines printed so far, oldest first *)
  stdout : list string;
  (** the URIs passed to [requests.get] so far, oldest first *)
  requests_log : list string
}.

(** [Dereferencer()] is evaluated once, when [RefObject.__init__] is
    defined: every proxy built without an explicit dereferencer shares
    the instance at this address. *)
Definition default_dereferencer : nat := 0.

(** The state after the module is imported. *)
Definition initial_world : world :=
  {| dereferencers := [∅]; refobjs := []; stdout := []; requests_log := [] |}.

Definition M (A : Type) : Type := world -> result A * world.

Definition ret {A} (a : A) : M A := fun w => (Ok a, w).
Definition raise {A} (e : exn) : M A := fun w => (Err e, w).
Definition bind {A B} (m : M A) (k : A -> M B) : M B :=
  fun w => match m w with
           | (Ok a, w') => k a w'
           | (Err e, w') => (Err e, w')
           end.
Definition lift {A} (r : result A) : M A := fun w => (r, w).

Notation "'do' x <- m ; k" := (bind m (fun x => k))
  (at level 10, x name, m at level 100, k at level 200).
Notation "'run' m ; k" := (bind m (fun _ => k))
  (at level 10, m at level 100, k at level 200).

Fixpoint mapM {A B} (f : A -> M B) (l : list A) : M (list B) :=
  match l with
  | [] => ret []
  | x :: rest => do y <- f x; do ys <- mapM f rest; ret (y :: ys)
  end.

Definition print (line : string) : M unit :=
  fun w => (Ok tt, {| dereferencers := dereferencers w; refobjs := refobjs w;
                      stdout := stdout w ++ [line];
                      requests_log := requests_log w |}).

Definition get_store (self : nat) (w : world) : gmap string json :=
  default ∅ (dereferencers w !! self).

Definition set_store (self : nat) (store : gmap string json) (w : world) : world :=
  {| dereferencers := <[self := store]> (dereferencers w); refobjs := refobjs w;
     stdout := stdout w; requests_log := requests_log w |}.

Definition set_refobj (r : addr) (o : RefObject) (w : world) : world :=
  {| dereferencers := dereferencers w; refobjs := <[r := o]> (refobjs w);
     stdout := stdout w; requests_log := requests_log w |}.

Definition alloc_refobj (o : RefObject) (w : world) : world :=
  {| dereferencers := dereferencers w; refobjs := refobjs w ++ [o];
     stdout := stdout w; requests_log := requests_log w |}.

Definition log_request (uri : string) (w : world) : world :=
  {| dereferencers := dereferencers w; refobjs := refobjs w;
     stdout := stdout w; requests_log := requests_log w ++ [uri] |}.

(** What [RefObject.dereference] does on a proxy whose [ref] is not a
    string. The print formats [self.ref] with [%s], which runs [str] on
    it (on a proxy inside [ref] that is its [__str__], which
    dereferences that proxy), and [urldefrag] then runs urllib on a
    value that is not a string. None of this is code of the repository;
    the step is left open: given the proxy and its [ref], it is some
    computation on the world. *)
Class Runtime : Type := {
  dereference_non_string : addr -> loaded -> M unit
}.

(** ** The engine *)

Section Engine.
Context {U : Urllib} {R : Requests} {J : JsonLib} {N : Runtime}.

(** *** [_URIDict] *)

Definition normalize (uri : string) : string := urlsplit_geturl uri.

(** [__init__]: [self.store = dict()] followed by [self.store.update]
    on the arguments, which go into the dict as they come (a later pair
    replaces an earlier one with the same key). *)
Definition URIDict_init (seed : list (string * json)) : gmap string json :=
  fold_left (fun store kv => <[fst kv := snd kv]> store) seed ∅.

Definition URIDict_getitem (store : gmap string json) (uri : string) : result json :=
  match store !! normalize uri with
  | Some v => Ok v
  | None => Err (KeyError (normalize uri))
  end.

Definition URIDict_setitem (store : gmap string json) (uri : string) (value : json)
  : gmap string json :=
  <[normalize uri := value]> store.


(** [uri in store], inherited from [Mapping]: [self[uri]] is tried and
    a [KeyError] means no. *)
Definition URIDict_contains (store : gmap string json) (uri : string) : result bool :=
  match URIDict_getitem store uri with
  | Ok _ => Ok true
  | Err (KeyError _) => Ok false
  | Err e => Err e
  end.

(** *** [Dereferencer] *)

(** [Dereferencer(store)]: a new instance; its address is returned. *)
Definition Dereferencer_init (seed : list (string * json)) : M nat :=
  fun w => (Ok (length (dereferencers w)),
            {| dereferencers := dereferencers w ++ [URIDict_init seed];
               refobjs := refobjs w; stdout := stdout w;
               requests_log := requests_log w |}).

Definition Dereferencer_remote (self : nat) (uri : string) : M json :=
  fun w =>
    match requests_get_json (requests_log w) uri with
    | Err e => (Err e, log_request uri w)
    | Ok doc =>
        let w' := log_request uri w in
        (Ok doc, set_store self (URIDict_setitem (get_store self w') uri doc) w')
    end.

Definition Dereferencer_dereference (self : nat) (full_uri : string) : M json :=
  let '(uri, fragment) := urldefrag full_uri in
  do document <-
    (fun w =>
       match URIDict_contains (get_store self w) uri with
       | Ok true => lift (URIDict_getitem (get_store self w) uri) w
       | Ok false => Dereferencer_remote self uri w
       | Err e => (Err e, w)
       end);
  lift (resolve_pointer document fragment).

(** *** [RefObject] *)

(** [RefObject(ref, base_uri, dereferencer)]: a new instance; its
    address is returned. *)
Definition RefObject_init (ref : loaded) (base_uri : string) (dereferencer : nat)
  : M addr :=
  do joined <- lift (urljoin base_uri ref);
  fun w => (Ok (length (refobjs w)),
            alloc_refobj (mkRefObject joined false JNull dereferencer) w).

Definition get_refobj (self : addr) : M RefObject :=
  fun w => match refobjs w !! self with
           | Some o => (Ok o, w)
           | None => (Err TypeError, w)
           end.

(** [self.object = value] and [self.dereferenced = flag]. *)
Definition set_object (self : addr) (value : json) : M unit :=
  do o <- get_refobj self;
  fun w => (Ok tt, set_refobj self
                     (mkRefObject (ref o) (dereferenced o) value (dereferencer o)) w).

Definition set_dereferenced (self : addr) (flag : bool) : M unit :=
  do o <- get_refobj self;
  fun w => (Ok tt, set_refobj self
                     (mkRefObject (ref o) flag (object o) (dereferencer o)) w).

(** [RefObject.dereference]. On a [ref] that is a string the line
    printed is ["dereferencing "] followed by it; any other [ref] is
    the business of [dereference_non_string]. *)
Definition RefObject_dereference (self : addr) : M unit :=
  do o <- get_refobj self;
  match ref o with
  | LStr uri =>
      run print ("dereferencing " +:+ uri);
      do value <- Dereferencer_dereference (dereferencer o) uri;
      run set_object self value;
      set_dereferenced self true
  | other => dereference_non_string self other
  end.

(** The decorator: [func] is [repr], [str], [iter], [bool] or
    [getattr] with its arguments, applied to the dereferenced object. *)
Definition dereferencing {A} (func : json -> result A) (refobj : addr) : M A :=
  do o <- get_refobj refobj;
  run (if negb (dereferenced o) then RefObject_dereference refobj else ret tt);
  do o' <- get_refobj refobj;
  lift (func (object o')).

(** A caller that observes the same proxy through [funcs], one after
    the other, and keeps every outcome. *)
Fixpoint observations {A} (funcs : list (json -> result A)) (refobj : addr) (w : world)
  : list (result A) * world :=
  match funcs with
  | [] => ([], w)
  | func :: rest =>
      let (x, w1) := dereferencing func refobj w in
      let (xs, w2) := observations rest refobj w1 in
      (x :: xs, w2)
  end.

(** *** The loaders *)

(** [_as_ref_object], on a dict whose values are already loaded. *)
Definition _as_ref_object (dct : list (string * loaded)) : M loaded :=
  match dict_get "$ref" dct with
  | Some v => do r <- RefObject_init v "" default_dereferencer; ret (LRef r)
  | None => ret (LObj dct)
  end.

(** The hook-driven decoding of a document, that is of an object
    tree in which no key is repeated: members and items are decoded in
    order, and the hook is called on every object once its members are
    done. *)
Fixpoint decode_with_hook (hook : list (string * loaded) -> M loaded) (j : json)
  : M loaded :=
  match j with
  | JNull => ret LNull
  | JBool b => ret (LBool b)
  | JNum n => ret (LNum n)
  | JStr s => ret (LStr s)
  | JArr items => do l <- mapM (decode_with_hook hook) items; ret (LArr l)
  | JObj members =>
      do dct <- mapM (fun kv => do v <- decode_with_hook hook (snd kv); ret (fst kv, v))
                     members;
      hook dct
  end.

(** What [json.loads(text, object_hook=hook)] does with the objects of
    the text: the values of all the pairs are decoded in order (the
    hook runs inside each of them, also in a pair whose key comes
    again later), the dict is built from the pairs, and the hook is
    called on it. *)
Fixpoint decode_text (hook : list (string * loaded) -> M loaded) (j : json)
  : M loaded :=
  match j with
  | JNull => ret LNull
  | JBool b => ret (LBool b)
  | JNum n => ret (LNum n)
  | JStr s => ret (LStr s)
  | JArr items => do l <- mapM (decode_text hook) items; ret (LArr l)
  | JObj pairs =>
      do decoded <- mapM (fun kv => do v <- decode_text hook (snd kv); ret (fst kv, v))
                         pairs;
      hook (dict_of_pairs decoded)
  end.

(** [loads = partial(json.loads, object_hook=_as_ref_object)]; [load]
    is the same on the text read from a file. *)
Definition loads (text : string) : M loaded :=
  do j <- lift (json_loads text);
  decode_text _as_ref_object j.

Definition load (text : string) : M loaded := loads text.

(** [loadp]: [obj["$ref"]] raises [KeyError] on a dict without the
    key and [TypeError] on anything that is not a dict; these are what
    the [except] clause catches, since [RefObject] with the default
    base does not raise ([urljoin_no_base]). *)
Fixpoint loadp (obj : json) : M loaded :=
  match obj with
  | JObj members =>
      match dict_get "$ref" members with
      | Some v => do r <- RefObject_init (raw v) "" default_dereferencer; ret (LRef r)
      | None =>
          do l <- mapM (fun kv => do v <- loadp (snd kv); ret (fst kv, v)) members;
          ret (LObj l)
      end
  | JArr items => do l <- mapM loadp items; ret (LArr l)
  | JNull => ret LNull
  | JBool b => ret (LBool b)
  | JNum n => ret (LNum n)
  | JStr s => ret (LStr s)
  end.

End Engine.

(** ** Executable instances of the libraries

    [Sample] is one concrete choice of [urllib], [requests] and [json],
    small enough to run. Each function says on which inputs it agrees
    with the Python library; the runs below stay inside them. *)

Module Sample.

Definition code (c : ascii) : nat := nat_of_ascii c.

Definition between (lo hi : nat) (c : ascii) : bool :=
  Nat.leb lo (code c) && Nat.leb (code c) hi.

Definition hex_digit (c : ascii) : option nat :=
  if between 48 57 c then Some (code c - 48)
  else if between 65 70 c then Some (code c - 55)
  else if between 97 102 c then Some (code c - 87)
  else None.

(** [unquote]: every ["%XY"] with two hexadecimal digits becomes the
    character of that code, anything else stays. Agrees with urllib
    when the decoded bytes are ASCII. *)
Fixpoint unquote (s : string) : string :=
  match s with
  | EmptyString => EmptyString
  | String c tail =>
      if Ascii.eqb c "%" then
        match tail with
        | String a (String b rest) =>
            match hex_digit a, hex_digit b with
            | Some x, Some y => String (ascii_of_nat (16 * x + y)) (unquote rest)
            | _, _ => String c (unquote tail)
            end
        | _ => String c (unquote tail)
        end
      else String c (unquote tail)
  end.

Definition is_alpha (c : ascii) : bool := between 65 90 c || between 97 122 c.

Definition is_scheme_char (c : ascii) : bool :=
  is_alpha c || between 48 57 c || Ascii.eqb c "+" || Ascii.eqb c "-" || Ascii.eqb c ".".

Definition lower (c : ascii) : ascii :=
  if between 65 90 c then ascii_of_nat (code c + 32) else c.

(** The string with everything before its first [':'] in lower case,
    when that part is made of scheme characters. *)
Fixpoint lower_scheme (s : string) : option string :=
  match s with
  | EmptyString => None
  | String c rest =>
      if Ascii.eqb c ":" then Some s
      else if is_scheme_char c
           then option_map (String (lower c)) (lower_scheme rest)
           else None
  end.

(** [urlsplit(uri).geturl()]: the scheme comes back in lower case.
    Agrees with urllib on a reference without a scheme and on
    [scheme://netloc/path?query#fragment] with a netloc, where a query
    or fragment that is present is not empty. *)
Definition urlsplit_geturl (uri : string) : string :=
  match uri with
  | String c _ =>
      if is_alpha c
      then match lower_scheme uri with Some u => u | None => uri end
      else uri
  | EmptyString => uri
  end.

(** The text before the first ['#'] and the text after it. *)
Fixpoint split_hash (s : string) : option (string * string) :=
  match s with
  | EmptyString => None
  | String c rest =>
      if Ascii.eqb c "#" then Some (EmptyString, rest)
      else option_map (fun p => (String c (fst p), snd p)) (split_hash rest)
  end.

(** [urldefrag]: a URL with a ['#'] is split there and the first part
    is put together again by [urlunparse]; a URL without one comes
    back as it is. *)
Definition urldefrag (url : string) : string * string :=
  match split_hash url with
  | Some (u, fragment) => (urlsplit_geturl u, fragment)
  | None => (url, EmptyString)
  end.

(** [urljoin]: the two early returns of urllib's function, and a
    reference that is only a fragment (["#"] and at least one more
    character) against an [http://] base without fragment, where the
    base keeps everything and takes the fragment. Any other join is
    not part of this instance. *)
Definition urljoin (base : string) (url : loaded) : result loaded :=
  match base with
  | EmptyString => Ok url
  | _ =>
      match url with
      | LStr EmptyString => Ok (LStr base)
      | LStr (String c (String d rest)) =>
          if Ascii.eqb c "#" && String.prefix "http://" base
             && negb (PyStr.has_char "#" base)
          then Ok (LStr (base +:+ String c (String d rest)))
          else Err NotImplementedError
      | LStr _ => Err NotImplementedError
      | _ => Err TypeError
      end
  end.

(** The one document this web serves. *)
Definition served : json :=
  JObj [("a", JObj [("b", JNum 42)]); ("c", JArr [JNum 1; JNum 2])].

(** [requests.get(uri).json()]: the document above at
    [http://example.com/doc], an error for any other URI (the empty
    URI among them: requests refuses a URL without a scheme). *)
Definition requests_get_json (history : list string) (uri : string) : result json :=
  if String.eqb (urlsplit_geturl uri) "http://example.com/doc"
  then Ok served
  else Err RequestError.

(** *** A JSON reader

    [json.loads] on texts whose numbers are integers and whose
    strings use no [\u] escape; any other text is refused. An object
    is read as the list of its pairs, repeated keys included. *)

Definition dquote : ascii := "034"%char.
Definition backslash : ascii := "092"%char.

Definition is_ws (c : ascii) : bool :=
  Ascii.eqb c " " || Ascii.eqb c "009"%char || Ascii.eqb c "010"%char
  || Ascii.eqb c "013"%char.

Fixpoint skip_ws (s : string) : string :=
  match s with
  | String c rest => if is_ws c then skip_ws rest else s
  | EmptyString => s
  end.

Definition escaped (c : ascii) : option ascii :=
  if Ascii.eqb c dquote then Some dquote
  else if Ascii.eqb c backslash then Some backslash
  else if Ascii.eqb c "/" then Some "/"%char
  else if Ascii.eqb c "b" then Some "008"%char
  else if Ascii.eqb c "f" then Some "012"%char
  else if Ascii.eqb c "n" then Some "010"%char
  else if Ascii.eqb c "r" then Some "013"%char
  else if Ascii.eqb c "t" then Some "009"%char
  else None.

(** The characters of a string literal after its opening quote, and
    what follows the closing quote. *)
Fixpoint read_string (s : string) : option (string * string) :=
  match s with
  | EmptyString => None
  | String c rest =>
      if Ascii.eqb c dquote then Some (EmptyString, rest)
      else if Ascii.eqb c backslash then
        match rest with
        | String e rest' =>
            match escaped e with
            | Some x => option_map (fun p => (String x (fst p), snd p)) (read_string rest')
            | None => None
            end
        | EmptyString => None
        end
      else if Nat.ltb (code c) 32 then None
      else option_map (fun p => (String c (fst p), snd p)) (read_string rest)
  end.

Fixpoint read_digits (acc : Z) (s : string) : Z * string :=
  match s with
  | String c rest =>
      if between 48 57 c
      then read_digits (10 * acc + Z.of_nat (code c - 48)) rest
      else (acc, s)
  | EmptyString => (acc, s)
  end.

(** [0] or a digit from 1 to 9 followed by digits; a fraction or an
    exponent after it makes a float, which is refused. *)
Definition read_nat (s : string) : option (Z * string) :=
  match s with
  | String c rest =>
      let r := if Ascii.eqb c "0" then Some (0%Z, rest)
               else if between 49 57 c then Some (read_digits 0 s)
               else None in
      match r with
      | Some (n, String d rest') =>
          if Ascii.eqb d "." || Ascii.eqb d "e" || Ascii.eqb d "E" then None
          else Some (n, String d rest')
      | other => other
      end
  | EmptyString => None
  end.

Definition read_word (word : string) (v : json) (s : string) : option (json * string) :=
  if String.prefix word s
  then Some (v, String.substring (String.length word)
                                 (String.length s - String.length word) s)
  else None.

Fixpoint read_value (fuel : nat) (s : string) : option (json * string) :=
  match fuel with
  | O => None
  | S fuel =>
      match skip_ws s with
      | EmptyString => None
      | String c rest =>
          if Ascii.eqb c "{" then
            match skip_ws rest with
            | String d rest' =>
                if Ascii.eqb d "}" then Some (JObj [], rest')
                else read_members fuel [] (String d rest')
            | EmptyString => None
            end
          else if Ascii.eqb c "[" then
            match skip_ws rest with
            | String d rest' =>
                if Ascii.eqb d "]" then Some (JArr [], rest')
                else read_items fuel [] (String d rest')
            | EmptyString => None
            end
          else if Ascii.eqb c dquote then
            option_map (fun p => (JStr (fst p), snd p)) (read_string rest)
          else if Ascii.eqb c "-" then
            option_map (fun p => (JNum (- fst p), snd p)) (read_nat rest)
          else if between 48 57 c then
            option_map (fun p => (JNum (fst p), snd p)) (read_nat (String c rest))
          else if Ascii.eqb c "n" then read_word "null" JNull (String c rest)
          else if Ascii.eqb c "t" then read_word "true" (JBool true) (String c rest)
          else if Ascii.eqb c "f" then read_word "false" (JBool false) (String c rest)
          else None
      end
  end
with read_items (fuel : nat) (acc : list json) (s : string) : option (json * string) :=
  match fuel with
  | O => None
  | S fuel =>
      match read_value fuel s with
      | Some (v, s1) =>
          match skip_ws s1 with
          | String d s2 =>
              if Ascii.eqb d "," then read_items fuel (acc ++ [v]) s2
              else if Ascii.eqb d "]" then Some (JArr (acc ++ [v]), s2)
              else None
          | EmptyString => None
          end
      | None => None
      end
  end
with read_members (fuel : nat) (acc : list (string * json)) (s : string)
  : option (json * string) :=
  match fuel with
  | O => None
  | S fuel =>
      match skip_ws s with
      | String q s1 =>
          if Ascii.eqb q dquote then
            match read_string s1 with
            | Some (key, s2) =>
                match skip_ws s2 with
                | String colon s3 =>
                    if Ascii.eqb colon ":" then
                      match read_value fuel s3 with
                      | Some (v, s4) =>
                          match skip_ws s4 with
                          | String d s5 =>
                              if Ascii.eqb d "," then read_members fuel (acc ++ [(key, v)]) s5
                              else if Ascii.eqb d "}" then Some (JObj (acc ++ [(key, v)]), s5)
                              else None
                          | EmptyString => None
                          end
                      | None => None
                      end
                    else None
                | EmptyString => None
                end
            | None => None
            end
          else None
      | EmptyString => None
      end
  end.

Definition json_loads (text : string) : result json :=
  match read_value (2 * String.length text + 2) text with
  | Some (v, rest) =>
      match skip_ws rest with
      | EmptyString => Ok v
      | _ => Err JSONDecodeError
      end
  | None => Err JSONDecodeError
  end.

(** The sample [urllib], with the two laws of the class. *)
Definition urllib : Urllib.
Proof.
  refine (Build_Urllib unquote urlsplit_geturl urldefrag urljoin _ _).
  - intros s. induction s as [|c tail IH]; simpl; [reflexivity|].
    intros Hc. apply orb_false_iff in Hc as [Hc Htail].
    rewrite Hc, (IH Htail). reflexivity.
  - reflexivity.
Defined.

Definition requests : Requests := Build_Requests requests_get_json.

Definition jsonlib : JsonLib := Build_JsonLib json_loads.

(** No run below dereferences a proxy whose [ref] is not a string; this
    instance raises [TypeError] there. *)
Definition runtime : Runtime := Build_Runtime (fun _ _ => raise TypeError).

End Sample.

(** ** The specification's wording of the pointer walk

    Used only to say where the code departs from it. *)

Module Spec.

Definition digit (c : ascii) : option nat :=
  if Sample.between 48 57 c then Some (Sample.code c - 48) else None.

Fixpoint decimal_from (acc : nat) (s : string) : option nat :=
  match s with
  | EmptyString => Some acc
  | String c rest =>
      match digit c with
      | Some d => decimal_from (10 * acc + d) rest
      | None => None
      end
  end.

(** A token read as a base-10 non-negative integer. *)
Definition index_of_token (token : string) : option nat :=
  match token with
  | EmptyString => None
  | _ => decimal_from 0 token
  end.

(** A mapping is looked up by key, an array by position. *)
Definition step (document : json) (token : string) : option json :=
  match document with
  | JObj members => dict_get token members
  | JArr items =>
      match index_of_token token with
      | Some i => items !! i
      | None => None
      end
  | _ => None
  end.

Fixpoint walk (document : json) (tokens : list string) : option json :=
  match tokens with
  | [] => Some document
  | token :: rest =>
      match step document (unescape token) with
      | Some document' => walk document' rest
      | None => None
      end
  end.

Definition strip_one (c : ascii) (s : string) : string :=
  match s with
  | String x rest => if Ascii.eqb x c then rest else s
  | EmptyString => s
  end.

(** Percent-decode, strip a single leading ['/'], split on ['/']. *)
Definition tokens {U : Urllib} (pointer : string) : list string :=
  match pointer with
  | EmptyString => []
  | _ => PyStr.split "/" (strip_one "/" (unquote pointer))
  end.

(** [RefObject(ref, base_uri)] with the base URI of the document the
    reference was found in. *)
Definition as_ref_object {U : Urllib} (base_uri : string)
           (dct : list (string * loaded)) : M loaded :=
  match dict_get "$ref" dct with
  | Some v => do r <- RefObject_init v base_uri default_dereferencer; ret (LRef r)
  | None => ret (LObj dct)
  end.

End Spec.

(** The pointer that addresses a key: ['~'] is written ["~0"] and ['/']
    is written ["~1"]. *)
Fixpoint escape (key : string) : string :=
  match key with
  | EmptyString => EmptyString
  | String c rest =>
      if Ascii.eqb c "~" then String "~" (String "0" (escape rest))
      else if Ascii.eqb c "/" then String "~" (String "1" (escape rest))
      else String c (escape rest)
  end.

(** [n] slashes. *)
Fixpoint slashes (n : nat) : string :=
  match n with
  | O => EmptyString
  | S k => String "/" (slashes k)
  end.

(** A walk that succeeds: every token is a key of the mapping reached
    so far. *)
Inductive reaches : json -> list string -> json -> Prop :=
| reaches_here document : reaches document [] document
| reaches_key members part rest v r :
    dict_get (unescape part) members = Some v ->
    reaches v rest r ->
    reaches (JObj members) (part :: rest) r.

(** The text after the first replacement: only ["~0"] is left to undo. *)
Fixpoint half_escaped (key : string) : string :=
  match key with
  | EmptyString => EmptyString
  | String c rest =>
      if Ascii.eqb c "~" then String "~" (String "0" (half_escaped rest))
      else String c (half_escaped rest)
  end.


Definition quoted (s : string) : string :=
  String Sample.dquote (s +:+ String Sample.dquote EmptyString).

(** The text [{"x": {"$ref": "#/y"}, "y": 7}] and what it parses to. *)
Definition root_text : string :=
  "{" +:+ quoted "x" +:+ ": {" +:+ quoted "$ref" +:+ ": " +:+ quoted "#/y" +:+ "}, "
  +:+ quoted "y" +:+ ": 7}".

Definition root_document : json :=
  JObj [("x", JObj [("$ref", JStr "#/y")]); ("y", JNum 7)].

(** The observation that hands the dereferenced object back. *)
Definition see : json -> result json := Ok.


(** The keys of a list are pairwise different. *)
Fixpoint keys_distinct (keys : list string) : bool :=
  match keys with
  | [] => true
  | k :: rest => negb (existsb (String.eqb k) rest) && keys_distinct rest
  end.

(** No object of the tree repeats a key. *)
Fixpoint no_repeated_key (j : json) : bool :=
  match j with
  | JArr items => forallb no_repeated_key items
  | JObj members =>
      keys_distinct (map fst members)
      && forallb (fun kv => no_repeated_key (snd kv)) members
  | _ => true
  end.

(** Some object of the document has the key ["$ref"]. *)
Fixpoint has_ref (j : json) : bool :=
  match j with
  | JArr items => existsb has_ref items
  | JObj members =>
      dict_has "$ref" members || existsb (fun kv => has_ref (snd kv)) members
  | _ => false
  end.

(** No object with the key ["$ref"] has an object with that key
    anywhere under its members. *)
Fixpoint flat_refs (j : json) : bool :=
  match j with
  | JArr items => forallb flat_refs items
  | JObj members =>
      if dict_has "$ref" members
      then negb (existsb (fun kv => has_ref (snd kv)) members)
      else forallb (fun kv => flat_refs (snd kv)) members
  | _ => true
  end.

(** The proxies of a loaded tree, from left to right. *)
Fixpoint refs_of (t : loaded) : list addr :=
  match t with
  | LRef r => [r]
  | LArr items => flat_map refs_of items
  | LObj members => flat_map (fun kv => refs_of (snd kv)) members
  | _ => []
  end.

(** [inner] is [outer] or sits under members of [outer]. *)
Inductive subvalue : json -> json -> Prop :=
| subvalue_same document : subvalue document document
| subvalue_member inner members key v :
    In (key, v) members -> subvalue inner v -> subvalue inner (JObj members).

(** A proxy as the loaders build it: unresolved, nothing cached, on the
    default dereferencer. *)
Definition fresh_proxy (o : RefObject) : Prop :=
  dereferenced o = false /\ object o = JNull /\ dereferencer o = default_dereferencer.

(** The world with more proxies on the heap and nothing else changed. *)
Definition grow (news : list RefObject) (w : world) : world :=
  {| dereferencers := dereferencers w; refobjs := refobjs w ++ news;
     stdout := stdout w; requests_log := requests_log w |}.

(** A computation that returns a value and only adds fresh proxies. *)
Definition allocates {A} (m : M A) : Prop :=
  forall w, exists x news, m w = (Ok x, grow news w) /\ Forall fresh_proxy news.

(** A computation that returns a value whose proxies, as listed by
    [refs], are the ones it added, each once and in the order of the
    heap. *)
Definition loads_in_order {A} (refs : A -> list addr) (m : M A) : Prop :=
  forall w, exists x news,
    m w = (Ok x, grow news w) /\ Forall fresh_proxy news /\
    refs x = seq (length (refobjs w)) (length news).

(** Induction on a document, through its items and members. *)
Section JsonInduction.
Variable P : json -> Prop.
Hypothesis HNull : P JNull.
Hypothesis HBool : forall b, P (JBool b).
Hypothesis HNum : forall n, P (JNum n).
Hypothesis HStr : forall s, P (JStr s).
Hypothesis HArr : forall items, Forall P items -> P (JArr items).
Hypothesis HObj : forall members, Forall (fun kv => P (snd kv)) members -> P (JObj members).

Fixpoint json_nested_ind (j : json) : P j :=
  match j with
  | JNull => HNull
  | JBool b => HBool b
  | JNum n => HNum n
  | JStr s => HStr s
  | JArr items =>
      HArr items
           ((fix go (l : list json) : Forall P l :=
               match l with
               | [] => @List.Forall_nil _ P
               | x :: rest => @List.Forall_cons _ P x rest (json_nested_ind x) (go rest)
               end) items)
  | JObj members =>
      HObj members
           ((fix go (l : list (string * json)) : Forall (fun kv => P (snd kv)) l :=
               match l with
               | [] => @List.Forall_nil _ _
               | kv :: rest =>
                   @List.Forall_cons _ (fun kv => P (snd kv)) kv rest
                                     (json_nested_ind (snd kv)) (go rest)
               end) members)
  end.
End JsonInduction.

(** ** Facts about the string methods *)

Section StrFacts.

Local Arguments Ascii.eqb : simpl never.

Lemma lstrip_no_lead (c : ascii) (s : string) :
  PyStr.has_char c s = false -> PyStr.lstrip c s = s.
Proof.
  destruct s as [|x s']; simpl; [reflexivity|].
  intros Hc. apply orb_false_iff in Hc as [-> _]. reflexivity.
Qed.

Lemma lstrip_slashes (n : nat) (s : string) :
  PyStr.lstrip "/" (slashes n +:+ s) = PyStr.lstrip "/" s.
Proof. induction n as [|n IH]; simpl; [reflexivity | exact IH]. Qed.

Lemma split_no_sep (c : ascii) (s : string) :
  PyStr.has_char c s = false -> PyStr.split c s = [s].
Proof.
  induction s as [|x s' IH]; simpl; [reflexivity|].
  intros Hc. apply orb_false_iff in Hc as [Hx Hs'].
  rewrite Hx, (IH Hs'). reflexivity.
Qed.

Lemma has_char_escape (c : ascii) (key : string) :
  c <> "~"%char -> c <> "0"%char -> c <> "1"%char ->
  PyStr.has_char c (escape key) = (PyStr.has_char c key && negb (Ascii.eqb c "/")).
Proof.
  intros H1 H2 H3.
  assert (E1 : Ascii.eqb "~" c = false) by (apply Ascii.eqb_neq; congruence).
  assert (E2 : Ascii.eqb "0" c = false) by (apply Ascii.eqb_neq; congruence).
  assert (E3 : Ascii.eqb "1" c = false) by (apply Ascii.eqb_neq; congruence).
  induction key as [|x key IH]; [reflexivity|].
  cbn [escape].
  destruct (Ascii.eqb_spec x "~") as [->|Hx1].
  - cbn [PyStr.has_char]. rewrite IH, E1, E2. reflexivity.
  - destruct (Ascii.eqb_spec x "/") as [->|Hx2].
    + cbn [PyStr.has_char]. rewrite IH, E1, E3, (Ascii.eqb_sym "/" c).
      destruct (Ascii.eqb c "/"); cbn [orb negb];
        [rewrite andb_false_r|]; reflexivity.
    + cbn [PyStr.has_char]. rewrite IH.
      destruct (Ascii.eqb_spec x c) as [->|]; cbn [orb]; [|reflexivity].
      destruct (Ascii.eqb_spec c "/"); [congruence|]. reflexivity.
Qed.

Lemma escape_no_slash (key : string) : PyStr.has_char "/" (escape key) = false.
Proof.
  rewrite has_char_escape by discriminate. simpl. apply andb_false_r.
Qed.

Lemma escape_percent (key : string) :
  PyStr.has_char "%" (escape key) = PyStr.has_char "%" key.
Proof.
  rewrite has_char_escape by discriminate. simpl. apply andb_true_r.
Qed.

Lemma startswith_tilde (b x : ascii) (s : string) :
  x <> "~"%char ->
  PyStr.startswith (String "~" (String b EmptyString)) (String x s) = false.
Proof.
  intros Hx. cbn [PyStr.startswith].
  destruct (Ascii.eqb_spec "~" x); [congruence | reflexivity].
Qed.

Lemma replace_tilde1_escape (key : string) :
  PyStr.replace_from "~1" "/" 0 (escape key) = half_escaped key.
Proof.
  induction key as [|x key IH]; [reflexivity|].
  cbn [escape half_escaped].
  destruct (Ascii.eqb_spec x "~") as [->|Hx1].
  - cbn. rewrite IH. reflexivity.
  - destruct (Ascii.eqb_spec x "/") as [->|Hx2].
    + cbn. rewrite IH. reflexivity.
    + cbn [PyStr.replace_from]. rewrite startswith_tilde by assumption.
      rewrite IH. reflexivity.
Qed.

Lemma replace_tilde0_half (key : string) :
  PyStr.replace_from "~0" "~" 0 (half_escaped key) = key.
Proof.
  induction key as [|x key IH]; [reflexivity|].
  cbn [half_escaped].
  destruct (Ascii.eqb_spec x "~") as [->|Hx1].
  - cbn. rewrite IH. reflexivity.
  - cbn [PyStr.replace_from]. rewrite startswith_tilde by assumption.
    rewrite IH. reflexivity.
Qed.

Lemma unescape_escape (key : string) : unescape (escape key) = key.
Proof.
  unfold unescape, PyStr.replace.
  rewrite replace_tilde1_escape. apply replace_tilde0_half.
Qed.

End StrFacts.

(** ** The pointer walk *)

Section PointerFacts.
Context {U : Urllib}.

Lemma step_mapping (pointer : string) (members : list (string * json)) (part : string) :
  step pointer (JObj members) part =
  match dict_get (unescape part) members with
  | Some v => Ok v
  | None => Err (LookupError pointer)
  end.
Proof.
  unfold step, py_in, py_getitem, dict_has, rbind.
  destruct (dict_get (unescape part) members); reflexivity.
Qed.

Lemma step_not_mapping (pointer : string) (document : json) (part : string) :
  (forall members, document <> JObj members) ->
  step pointer document part = Err (LookupError pointer) \/
  step pointer document part = Err TypeError.
Proof.
  intros Hno. unfold step, py_in, py_getitem, rbind.
  destruct document as [| | | s | items | members];
    try (right; reflexivity).
  - destruct (PyStr.contains (unescape part) s); [right | left]; reflexivity.
  - destruct (list_has_str (unescape part) items); [right | left]; reflexivity.
  - destruct (Hno members); reflexivity.
Qed.

Lemma step_scalar (pointer : string) (document : json) (part : string) :
  match document with JNull | JBool _ | JNum _ => True | _ => False end ->
  step pointer document part = Err TypeError.
Proof. destruct document; intros []; reflexivity. Qed.

Lemma step_ok_mapping (pointer : string) (document : json) (part : string) (v : json) :
  step pointer document part = Ok v ->
  exists members, document = JObj members /\ dict_get (unescape part) members = Some v.
Proof.
  intros Hs. destruct document as [| | | s | items | members].
  1-5: match type of Hs with
       | step _ ?d _ = _ =>
           destruct (step_not_mapping pointer d part) as [E|E];
           [discriminate | rewrite E in Hs; discriminate ..]
       end.
  exists members. split; [reflexivity|].
  rewrite step_mapping in Hs.
  destruct (dict_get (unescape part) members); congruence.
Qed.

Lemma walk_reaches (pointer : string) (ps : list string) (document r : json) :
  walk pointer document ps = Ok r <-> reaches document ps r.
Proof.
  revert document. induction ps as [|part rest IH]; intros document; simpl.
  - split.
    + intros [= ->]. constructor.
    + inversion 1. reflexivity.
  - split.
    + destruct (step pointer document part) as [v|e] eqn:Hs; [|discriminate].
      apply step_ok_mapping in Hs as (members & -> & Hget).
      intros Hw. econstructor; [exact Hget | apply IH, Hw].
    + inversion 1 as [|members p rs v r' Hget Hr]; subst.
      rewrite step_mapping, Hget. apply IH, Hr.
Qed.

Lemma walk_app (pointer : string) (before after : list string) (document mid : json) :
  reaches document before mid ->
  walk pointer document (before ++ after)%list = walk pointer mid after.
Proof.
  induction 1 as [|members part rest v r Hget _ IH]; simpl; [reflexivity|].
  rewrite step_mapping, Hget. exact IH.
Qed.

Lemma walk_error (pointer : string) (ps : list string) (document : json) (e : exn) :
  walk pointer document ps = Err e -> e = LookupError pointer \/ e = TypeError.
Proof.
  revert document. induction ps as [|part rest IH]; intros document; simpl;
    [discriminate|].
  destruct (step pointer document part) as [v|e'] eqn:Hs.
  - apply IH.
  - intros [= <-].
    destruct document as [| | | s | items | members].
    1-5: match type of Hs with
         | step _ ?d _ = _ =>
             destruct (step_not_mapping pointer d part) as [E|E];
             [discriminate | rewrite E in Hs; injection Hs as <-; auto ..]
         end.
    rewrite step_mapping in Hs.
    destruct (dict_get (unescape part) members); [discriminate|].
    injection Hs as <-. auto.
Qed.

Lemma parts_nonempty (pointer : string) :
  pointer <> EmptyString ->
  parts pointer = PyStr.split "/" (unquote (PyStr.lstrip "/" pointer)).
Proof. destruct pointer; [congruence | reflexivity]. Qed.

Lemma parts_escape (key : string) :
  PyStr.has_char "%" key = false ->
  parts (String "/" (escape key)) = [escape key].
Proof.
  intros Hk. rewrite parts_nonempty by discriminate.
  change (PyStr.lstrip "/" (String "/" (escape key)))
    with (PyStr.lstrip "/" (escape key)).
  rewrite (lstrip_no_lead _ _ (escape_no_slash key)).
  rewrite unquote_plain by (rewrite escape_percent; exact Hk).
  apply split_no_sep, escape_no_slash.
Qed.

(** C1 (amended). [resolve_pointer] walks the document one token at a
    time and returns the value reached after the last token; a step
    succeeds exactly when the current value is a mapping that has the
    (unescaped) token as a key, and then goes to the value under that
    key. No token is read as an array index: a step on an array raises
    [TypeError] when the token is one of its items and [LookupError]
    when it is not. *)
Theorem C1_resolve_pointer_walks_mappings :
  (forall (document : json) (pointer : string) (r : json),
      resolve_pointer document pointer = Ok r <->
      reaches document (parts pointer) r) /\
  (forall (pointer : string) (members : list (string * json)) (part : string)
          (rest : list string),
      walk pointer (JObj members) (part :: rest) =
      match dict_get (unescape part) members with
      | Some v => walk pointer v rest
      | None => Err (LookupError pointer)
      end) /\
  (forall (pointer : string) (items : list json) (part : string) (rest : list string),
      walk pointer (JArr items) (part :: rest) =
      if list_has_str (unescape part) items
      then Err TypeError
      else Err (LookupError pointer)).
Proof.
  split; [|split].
  - intros document pointer r. apply walk_reaches.
  - intros pointer members part rest. simpl. rewrite step_mapping.
    destruct (dict_get (unescape part) members); reflexivity.
  - intros pointer items part rest. cbn [walk]. unfold step, py_in, py_getitem, rbind.
    destruct (list_has_str (unescape part) items); reflexivity.
Qed.

(** C6 (amended). For a non-empty pointer the tokens are obtained by
    stripping every leading ['/'] from the raw pointer, then
    percent-decoding what is left, then splitting on ['/']; an empty
    pointer has no token and resolves to the whole document. *)
Theorem C6_tokens_strip_all_then_decode :
  (forall document : json,
      parts EmptyString = [] /\ resolve_pointer document EmptyString = Ok document) /\
  (forall pointer : string,
      pointer <> EmptyString ->
      parts pointer = PyStr.split "/" (unquote (PyStr.lstrip "/" pointer))) /\
  (forall (n : nat) (s : string),
      PyStr.startswith "/" s = false ->
      slashes n +:+ s <> EmptyString ->
      parts (slashes n +:+ s) = PyStr.split "/" (unquote s)).
Proof.
  split; [|split].
  - intros document. split; reflexivity.
  - apply parts_nonempty.
  - intros n s Hs Hne. rewrite parts_nonempty by exact Hne.
    rewrite lstrip_slashes. destruct s as [|c s']; [reflexivity|].
    cbn [PyStr.startswith] in Hs. cbn [PyStr.lstrip].
    destruct (Ascii.eqb_spec c "/") as [->|Hc]; [|reflexivity].
    rewrite Ascii.eqb_refl in Hs. discriminate.
Qed.

(** C7. Every token goes through [replace("~1", "/")] and then
    [replace("~0", "~")], which undoes the escaping of a key; so a
    member of a mapping is reached by the pointer made of ['/'] and
    its escaped key, for every key without ['%'] (["c/d"] by
    ["/c~1d"], ["e~f"] by ["/e~0f"]). *)
Theorem C7_escaped_key_addressable
        (members : list (string * json)) (key : string) (v : json) :
  PyStr.has_char "%" key = false ->
  dict_get key members = Some v ->
  (forall (pointer part : string),
      step pointer (JObj members) part =
      match dict_get (PyStr.replace "~0" "~" (PyStr.replace "~1" "/" part)) members with
      | Some x => Ok x
      | None => Err (LookupError pointer)
      end) /\
  PyStr.replace "~0" "~" (PyStr.replace "~1" "/" (escape key)) = key /\
  resolve_pointer (JObj members) (String "/" (escape key)) = Ok v.
Proof.
  intros Hk Hget. split; [|split].
  - intros pointer part. apply step_mapping.
  - apply unescape_escape.
  - unfold resolve_pointer. rewrite (parts_escape key Hk). simpl.
    rewrite step_mapping, unescape_escape, Hget. reflexivity.
Qed.

(** C8 (amended). A failing step ends the walk at once, whatever
    tokens follow. The exception is [LookupError], built from the whole
    pointer and from nothing else, when the token is not a key of the
    mapping reached, not an item of the array reached or not a part of
    the string reached; it is [TypeError] when the value reached is a
    number, a boolean or null, and when it is an array or a string that
    does hold the token. No other exception comes out of
    [resolve_pointer]. *)
Theorem C8_failing_step
        (document : json) (pointer : string) (before : list string) (part : string)
        (after : list string) (mid : json) :
  parts pointer = (before ++ part :: after)%list ->
  reaches document before mid ->
  (forall e, resolve_pointer document pointer = Err e ->
             e = LookupError pointer \/ e = TypeError) /\
  (forall members, mid = JObj members -> dict_get (unescape part) members = None ->
                   resolve_pointer document pointer = Err (LookupError pointer)) /\
  (match mid with JNull | JBool _ | JNum _ => True | _ => False end ->
   resolve_pointer document pointer = Err TypeError) /\
  (forall items, mid = JArr items ->
                 resolve_pointer document pointer =
                 if list_has_str (unescape part) items
                 then Err TypeError
                 else Err (LookupError pointer)) /\
  (forall s, mid = JStr s ->
             resolve_pointer document pointer =
             if PyStr.contains (unescape part) s
             then Err TypeError
             else Err (LookupError pointer)).
Proof.
  intros Hparts Hreach. unfold resolve_pointer. rewrite Hparts.
  rewrite (walk_app pointer before (part :: after) document mid Hreach).
  split; [|split; [|split; [|split]]].
  - intros e. rewrite <- (walk_app pointer before (part :: after) document mid Hreach).
    apply walk_error.
  - intros members -> Hget. simpl. rewrite step_mapping, Hget. reflexivity.
  - intros Hs. simpl. rewrite (step_scalar pointer mid part Hs). reflexivity.
  - intros items ->. cbn [walk]. unfold step, py_in, py_getitem, rbind.
    destruct (list_has_str (unescape part) items); reflexivity.
  - intros s ->. cbn [walk]. unfold step, py_in, py_getitem, rbind.
    destruct (PyStr.contains (unescape part) s); reflexivity.
Qed.

End PointerFacts.

(** ** The store and the dereferencer *)

Section EngineFacts.
Context {U : Urllib} {R : Requests} {J : JsonLib} {N : Runtime}.

Lemma get_store_log_request (self : nat) (uri : string) (w : world) :
  get_store self (log_request uri w) = get_store self w.
Proof. reflexivity. Qed.

Lemma get_store_set_store (self other : nat) (store : gmap string json) (w : world) :
  get_store self (set_store other store w) =
  if decide (other = self)
  then (if decide (other < length (dereferencers w)) then store else ∅)
  else get_store self w.
Proof.
  unfold get_store, set_store. cbn [dereferencers].
  destruct (decide (other = self)) as [->|Hne].
  - destruct (decide (self < length (dereferencers w))) as [Hlt|Hge].
    + rewrite list_lookup_insert_eq by exact Hlt. reflexivity.
    + rewrite list_insert_ge by lia.
      rewrite lookup_ge_None_2 by lia. reflexivity.
  - rewrite list_lookup_insert_ne by exact Hne. reflexivity.
Qed.

Lemma URIDict_contains_lookup (store : gmap string json) (uri : string) :
  URIDict_contains store uri =
  Ok (match store !! normalize uri with Some _ => true | None => false end).
Proof.
  unfold URIDict_contains, URIDict_getitem.
  destruct (store !! normalize uri); reflexivity.
Qed.

(** What one call of [dereference] does, by cases on the store and on
    the answer of the web. *)
Lemma dereference_cases (self : nat) (full_uri : string) (w : world) :
  Dereferencer_dereference self full_uri w =
  let uri := fst (urldefrag full_uri) in
  let fragment := snd (urldefrag full_uri) in
  match get_store self w !! normalize uri with
  | Some document => (resolve_pointer document fragment, w)
  | None =>
      match requests_get_json (requests_log w) uri with
      | Ok document =>
          (resolve_pointer document fragment,
           set_store self (<[normalize uri := document]> (get_store self w))
                     (log_request uri w))
      | Err e => (Err e, log_request uri w)
      end
  end.
Proof.
  unfold Dereferencer_dereference.
  destruct (urldefrag full_uri) as [uri fragment]. cbn [fst snd].
  unfold bind. rewrite URIDict_contains_lookup.
  unfold lift, URIDict_getitem, Dereferencer_remote, URIDict_setitem.
  destruct (get_store self w !! normalize uri) as [document|].
  - reflexivity.
  - rewrite get_store_log_request.
    destruct (requests_get_json (requests_log w) uri); reflexivity.
Qed.

Lemma dereference_keeps_heap (self : nat) (full_uri : string) (w : world) :
  refobjs (snd (Dereferencer_dereference self full_uri w)) = refobjs w /\
  stdout (snd (Dereferencer_dereference self full_uri w)) = stdout w.
Proof.
  rewrite dereference_cases. cbn zeta.
  destruct (get_store self w !! _); [split; reflexivity|].
  destruct (requests_get_json _ _); split; reflexivity.
Qed.

(** The sibling path of the constructor: a key that went through
    [__setitem__] is found by every URI that normalizes to the same
    text. *)
Lemma setitem_then_getitem (store : gmap string json) (key uri : string) (value : json) :
  normalize uri = normalize key ->
  URIDict_getitem (URIDict_setitem store key value) uri = Ok value /\
  URIDict_contains (URIDict_setitem store key value) uri = Ok true.
Proof.
  intros Hn. unfold URIDict_contains, URIDict_getitem, URIDict_setitem.
  rewrite Hn, lookup_insert_eq. split; reflexivity.
Qed.

(** C4. Whatever a dereferencer is asked, a document already in its
    store stays there as it is. A URI found in the store is answered
    from it: nothing is requested and nothing changes. Hence two
    references with the same base URI and different fragments,
    dereferenced one after the other on a store that lacks the base
    document, cause exactly one request. *)
Theorem C4_store_append_only_one_fetch :
  (forall (self other : nat) (full_uri : string) (w : world) (key : string)
          (document : json),
      get_store self w !! key = Some document ->
      get_store self (snd (Dereferencer_dereference other full_uri w)) !! key
      = Some document) /\
  (forall (self : nat) (full_uri : string) (w : world),
      URIDict_contains (get_store self w) (fst (urldefrag full_uri)) = Ok true ->
      snd (Dereferencer_dereference self full_uri w) = w) /\
  (forall (self : nat) (full1 full2 uri f1 f2 : string) (w : world) (document : json),
      self < length (dereferencers w) ->
      urldefrag full1 = (uri, f1) ->
      urldefrag full2 = (uri, f2) ->
      URIDict_contains (get_store self w) uri = Ok false ->
      requests_get_json (requests_log w) uri = Ok document ->
      requests_log
        (snd (Dereferencer_dereference self full2
                (snd (Dereferencer_dereference self full1 w))))
      = (requests_log w ++ [uri])%list).
Proof.
  split; [|split].
  - intros self other full_uri w key document Hkey.
    rewrite dereference_cases. cbn zeta.
    destruct (get_store other w !! _) as [d|] eqn:Hstore; [exact Hkey|].
    destruct (requests_get_json _ _) as [d|e]; cbn [snd]; [|exact Hkey].
    rewrite get_store_set_store, get_store_log_request.
    destruct (decide (other = self)) as [->|Hne]; [|exact Hkey].
    destruct (decide (self < length (dereferencers (log_request _ w)))) as [Hlt|Hge].
    + rewrite lookup_insert_ne; [exact Hkey|]. intros Heq.
      rewrite Heq in Hstore. congruence.
    + unfold get_store in Hkey. cbn [log_request dereferencers] in Hge.
      rewrite lookup_ge_None_2 in Hkey by lia. cbn in Hkey.
      rewrite lookup_empty in Hkey. discriminate.
  - intros self full_uri w. rewrite URIDict_contains_lookup, dereference_cases.
    cbn zeta. destruct (get_store self w !! _); [reflexivity | discriminate].
  - intros self full1 full2 uri f1 f2 w document Hself H1 H2 Hmiss Hget.
    rewrite URIDict_contains_lookup in Hmiss.
    rewrite (dereference_cases self full1), H1. cbn [fst snd].
    destruct (get_store self w !! normalize uri) eqn:Hstore; [discriminate|].
    rewrite Hget. cbn [snd].
    rewrite (dereference_cases self full2), H2. cbn [fst snd].
    rewrite get_store_set_store, decide_True by reflexivity.
    rewrite decide_True by exact Hself.
    rewrite lookup_insert_eq. reflexivity.
Qed.

End EngineFacts.

(** ** The proxy *)

Section ProxyFacts.
Context {U : Urllib} {R : Requests} {J : JsonLib} {N : Runtime}.

Lemma RefObject_init_ok (ref : loaded) (base_uri : string) (d : nat) (joined : loaded)
      (w : world) :
  urljoin base_uri ref = Ok joined ->
  RefObject_init ref base_uri d w =
  (Ok (length (refobjs w)), alloc_refobj (mkRefObject joined false JNull d) w).
Proof. intros Hj. unfold RefObject_init, bind, lift. rewrite Hj. reflexivity. Qed.

Lemma alloc_lookup (o : RefObject) (w : world) :
  refobjs (alloc_refobj o w) !! length (refobjs w) = Some o.
Proof. cbn [alloc_refobj refobjs]. apply list_lookup_middle. reflexivity. Qed.

Lemma dereferencing_resolved {A} (func : json -> result A) (r : addr) (o : RefObject)
      (w : world) :
  refobjs w !! r = Some o -> dereferenced o = true ->
  dereferencing func r w = (func (object o), w).
Proof.
  intros Ho Hd. unfold dereferencing, bind, get_refobj, lift.
  rewrite Ho, Hd. cbn. rewrite Ho. reflexivity.
Qed.

Lemma RefObject_dereference_cases (r : addr) (o : RefObject) (uri : string) (w : world) :
  refobjs w !! r = Some o -> ref o = LStr uri ->
  RefObject_dereference r w =
  match Dereferencer_dereference (dereferencer o) uri
          (snd (print ("dereferencing " +:+ uri) w)) with
  | (Ok v, w1) =>
      (Ok tt, set_refobj r (mkRefObject (LStr uri) true v (dereferencer o)) w1)
  | (Err e, w1) => (Err e, w1)
  end.
Proof.
  intros Ho Hr. unfold RefObject_dereference, bind at 1. unfold get_refobj at 1.
  rewrite Ho, Hr. unfold bind at 1. cbn [print snd]. unfold bind at 1.
  match goal with |- context [Dereferencer_dereference ?d ?u ?w0] =>
    pose proof (dereference_keeps_heap d u w0) as [Hheap _];
    destruct (Dereferencer_dereference d u w0) as [[v|e] w1] end; [|reflexivity].
  cbn [snd refobjs] in Hheap.
  assert (Hlt : r < length (refobjs w1)).
  { rewrite Hheap. eapply lookup_lt_Some, Ho. }
  unfold bind, set_object, set_dereferenced, bind, get_refobj.
  rewrite Hheap, Ho. cbn [set_refobj refobjs].
  rewrite list_lookup_insert_eq by exact Hlt.
  cbn [ref dereferenced object dereferencer].
  unfold set_refobj. cbn [dereferencers refobjs stdout requests_log].
  rewrite list_insert_insert_eq, Hr. reflexivity.
Qed.

Lemma dereferencing_first {A} (func : json -> result A) (r : addr) (o : RefObject)
      (uri : string) (v : json) (w w1 : world) :
  refobjs w !! r = Some o -> dereferenced o = false -> ref o = LStr uri ->
  Dereferencer_dereference (dereferencer o) uri
    (snd (print ("dereferencing " +:+ uri) w)) = (Ok v, w1) ->
  dereferencing func r w =
  (func v, set_refobj r (mkRefObject (LStr uri) true v (dereferencer o)) w1) /\
  refobjs (set_refobj r (mkRefObject (LStr uri) true v (dereferencer o)) w1) !! r
  = Some (mkRefObject (LStr uri) true v (dereferencer o)).
Proof.
  intros Ho Hd Hr Hderef.
  pose proof (dereference_keeps_heap (dereferencer o) uri
                (snd (print ("dereferencing " +:+ uri) w))) as [Hheap _].
  rewrite Hderef in Hheap. cbn [snd print refobjs] in Hheap.
  assert (Hnew : refobjs (set_refobj r (mkRefObject (LStr uri) true v (dereferencer o)) w1)
                 !! r = Some (mkRefObject (LStr uri) true v (dereferencer o))).
  { cbn [set_refobj refobjs]. apply list_lookup_insert_eq.
    rewrite Hheap. eapply lookup_lt_Some, Ho. }
  split; [|exact Hnew].
  unfold dereferencing, bind at 1. unfold get_refobj at 1. rewrite Ho, Hd.
  cbn [negb]. unfold bind at 1.
  rewrite (RefObject_dereference_cases r o uri w Ho Hr), Hderef.
  unfold bind, get_refobj, lift. rewrite Hnew. reflexivity.
Qed.

Lemma dereferencing_first_fails {A} (func : json -> result A) (r : addr) (o : RefObject)
      (uri : string) (e : exn) (w w1 : world) :
  refobjs w !! r = Some o -> dereferenced o = false -> ref o = LStr uri ->
  Dereferencer_dereference (dereferencer o) uri
    (snd (print ("dereferencing " +:+ uri) w)) = (Err e, w1) ->
  dereferencing func r w = (Err e, w1) /\ refobjs w1 !! r = Some o.
Proof.
  intros Ho Hd Hr Hderef.
  pose proof (dereference_keeps_heap (dereferencer o) uri
                (snd (print ("dereferencing " +:+ uri) w))) as [Hheap _].
  rewrite Hderef in Hheap. cbn [snd print refobjs] in Hheap.
  split; [|rewrite Hheap; exact Ho].
  unfold dereferencing, bind at 1. unfold get_refobj at 1. rewrite Ho, Hd.
  cbn [negb]. unfold bind at 1.
  rewrite (RefObject_dereference_cases r o uri w Ho Hr), Hderef. reflexivity.
Qed.

Lemma observations_resolved {A} (funcs : list (json -> result A)) (r : addr)
      (o : RefObject) (w : world) :
  refobjs w !! r = Some o -> dereferenced o = true ->
  observations funcs r w = (map (fun g => g (object o)) funcs, w).
Proof.
  intros Ho Hd. induction funcs as [|func rest IH]; [reflexivity|].
  cbn [observations map].
  rewrite (dereferencing_resolved func r o w Ho Hd), IH. reflexivity.
Qed.

(** C2 (amended). Building a proxy only adds it, unresolved, to the
    heap: nothing is printed, requested or stored. When the first
    dereference returns a value, the observations of the proxy, however
    many, call the dereferencer once in all (one line printed, at most
    one request), the value is kept in the proxy and every observation
    is answered from it. When the dereference raises, the observation
    raises the same exception, the proxy stays as it was, and the next
    observation calls the dereferencer again (a second line is
    printed). *)
Theorem C2_lazy_memoized_when_dereference_succeeds :
  (forall (ref : loaded) (base_uri : string) (d : nat) (joined : loaded) (w : world),
      urljoin base_uri ref = Ok joined ->
      let w' := alloc_refobj (mkRefObject joined false JNull d) w in
      RefObject_init ref base_uri d w = (Ok (length (refobjs w)), w') /\
      stdout w' = stdout w /\ requests_log w' = requests_log w /\
      dereferencers w' = dereferencers w) /\
  (forall (A : Type) (func : json -> result A) (funcs : list (json -> result A))
          (r : addr) (o : RefObject) (uri : string) (v : json) (w w1 : world),
      refobjs w !! r = Some o -> dereferenced o = false -> ref o = LStr uri ->
      Dereferencer_dereference (dereferencer o) uri
        (snd (print ("dereferencing " +:+ uri) w)) = (Ok v, w1) ->
      let w2 := set_refobj r (mkRefObject (LStr uri) true v (dereferencer o)) w1 in
      observations (func :: funcs) r w = (map (fun g => g v) (func :: funcs), w2) /\
      stdout w2 = (stdout w ++ ["dereferencing " +:+ uri])%list /\
      (requests_log w2 = requests_log w \/
       requests_log w2 = (requests_log w ++ [fst (urldefrag uri)])%list) /\
      refobjs w2 !! r = Some (mkRefObject (LStr uri) true v (dereferencer o))) /\
  (forall (A : Type) (func func' : json -> result A)
          (r : addr) (o : RefObject) (uri : string) (e : exn) (w w1 : world),
      refobjs w !! r = Some o -> dereferenced o = false -> ref o = LStr uri ->
      Dereferencer_dereference (dereferencer o) uri
        (snd (print ("dereferencing " +:+ uri) w)) = (Err e, w1) ->
      dereferencing func r w = (Err e, w1) /\
      refobjs w1 !! r = Some o /\
      stdout (snd (dereferencing func' r w1))
      = (stdout w ++ ["dereferencing " +:+ uri; "dereferencing " +:+ uri])%list).
Proof.
  split; [|split].
  - intros ref base_uri d joined w Hj w'. subst w'.
    rewrite (RefObject_init_ok ref base_uri d joined w Hj). repeat split.
  - intros A func funcs r o uri v w w1 Ho Hd Hr Hderef w2.
    destruct (dereferencing_first func r o uri v w w1 Ho Hd Hr Hderef) as [Hfirst Hnew].
    fold w2 in Hfirst, Hnew. repeat split.
    + cbn [observations map]. rewrite Hfirst.
      rewrite (observations_resolved funcs r _ w2 Hnew eq_refl). reflexivity.
    + pose proof (dereference_keeps_heap (dereferencer o) uri
                    (snd (print ("dereferencing " +:+ uri) w))) as [_ Hout].
      rewrite Hderef in Hout. exact Hout.
    + pose proof (dereference_cases (dereferencer o) uri
                    (snd (print ("dereferencing " +:+ uri) w))) as Hc.
      rewrite Hderef in Hc. cbn zeta in Hc. subst w2. cbn [set_refobj requests_log].
      destruct (get_store _ _ !! _); [injection Hc as _ ->; left; reflexivity|].
      cbn [print snd requests_log] in Hc.
      destruct (requests_get_json _ _); [|discriminate].
      injection Hc as _ ->. right. reflexivity.
    + exact Hnew.
  - intros A func func' r o uri e w w1 Ho Hd Hr Hderef.
    destruct (dereferencing_first_fails func r o uri e w w1 Ho Hd Hr Hderef)
      as [Hfirst Hstill].
    split; [exact Hfirst|]. split; [exact Hstill|].
    pose proof (dereference_keeps_heap (dereferencer o) uri
                  (snd (print ("dereferencing " +:+ uri) w))) as [_ Hout1].
    rewrite Hderef in Hout1. cbn [snd print stdout] in Hout1.
    pose proof (dereference_keeps_heap (dereferencer o) uri
                  (snd (print ("dereferencing " +:+ uri) w1))) as [_ Hout2].
    destruct (Dereferencer_dereference (dereferencer o) uri
                (snd (print ("dereferencing " +:+ uri) w1))) as [[v|e'] w2] eqn:Hagain;
      cbn [snd print stdout] in Hout2.
    + destruct (dereferencing_first func' r o uri v w1 w2 Hstill Hd Hr Hagain) as [-> _].
      cbn [snd set_refobj stdout]. rewrite Hout2, Hout1, <- app_assoc. reflexivity.
    + destruct (dereferencing_first_fails func' r o uri e' w1 w2 Hstill Hd Hr Hagain)
        as [-> _].
      cbn [snd]. rewrite Hout2, Hout1, <- app_assoc. reflexivity.
Qed.

End ProxyFacts.

(** ** The loaders *)

Section LoaderFacts.
Context {U : Urllib} {R : Requests} {J : JsonLib} {N : Runtime}.



Lemma as_ref_object_ref (dct : list (string * loaded)) (v : loaded) (w : world) :
  dict_get "$ref" dct = Some v ->
  _as_ref_object dct w =
  (Ok (LRef (length (refobjs w))),
   alloc_refobj (mkRefObject v false JNull default_dereferencer) w).
Proof.
  intros Hget. unfold _as_ref_object. rewrite Hget. unfold bind.
  rewrite (RefObject_init_ok v "" default_dereferencer v w (urljoin_no_base v)).
  reflexivity.
Qed.



Lemma loadp_ref (members : list (string * json)) (v : json) (w : world) :
  dict_get "$ref" members = Some v ->
  loadp (JObj members) w =
  (Ok (LRef (length (refobjs w))),
   alloc_refobj (mkRefObject (raw v) false JNull default_dereferencer) w).
Proof.
  intros Hget. cbn [loadp]. rewrite Hget. unfold bind.
  rewrite (RefObject_init_ok (raw v) "" default_dereferencer (raw v) w
                             (urljoin_no_base (raw v))).
  reflexivity.
Qed.


Lemma dict_has_dict_set {V} (key k : string) (v : V) (dct : list (string * V)) :
  dict_has key (dict_set k v dct) = String.eqb k key || dict_has key dct.
Proof.
  unfold dict_has. induction dct as [|[a x] rest IH]; cbn [dict_set dict_get].
  - destruct (String.eqb k key); reflexivity.
  - destruct (String.eqb_spec a k) as [->|Hak]; cbn [dict_get].
    + destruct (String.eqb k key); reflexivity.
    + destruct (String.eqb_spec a key) as [->|Hakey].
      * destruct (String.eqb_spec k key); [congruence | reflexivity].
      * exact IH.
Qed.

Lemma dict_has_cons {V} (key k : string) (v : V) (rest : list (string * V)) :
  dict_has key ((k, v) :: rest) = String.eqb k key || dict_has key rest.
Proof. unfold dict_has. cbn [dict_get]. destruct (String.eqb k key); reflexivity. Qed.

Lemma dict_has_of_pairs_from {V} (key : string) (pairs acc : list (string * V)) :
  dict_has key (fold_left (fun dct kv => dict_set (fst kv) (snd kv) dct) pairs acc)
  = dict_has key acc || dict_has key pairs.
Proof.
  revert acc. induction pairs as [|[k v] rest IH]; intros acc; cbn [fold_left fst snd].
  - rewrite orb_false_r. reflexivity.
  - rewrite IH, dict_has_dict_set, dict_has_cons.
    destruct (String.eqb k key), (dict_has key acc); reflexivity.
Qed.

Lemma dict_has_of_pairs {V} (key : string) (pairs : list (string * V)) :
  dict_has key (dict_of_pairs pairs) = dict_has key pairs.
Proof. unfold dict_of_pairs. rewrite dict_has_of_pairs_from. reflexivity. Qed.



(** C9 (amended). The constructor keeps [urljoin(base_uri, ref)] as
    the reference of the proxy. The loaders call it with the [$ref]
    value alone: no base URI reaches it, the default [""] applies, and
    the proxy keeps the [$ref] value as it is, so a relative reference
    stays relative. *)
Theorem C9_loader_refs_are_not_joined :
  (forall (ref : loaded) (base_uri : string) (d : nat) (joined : loaded) (w : world),
      urljoin base_uri ref = Ok joined ->
      RefObject_init ref base_uri d w =
      (Ok (length (refobjs w)), alloc_refobj (mkRefObject joined false JNull d) w)) /\
  (forall (dct : list (string * loaded)) (v : loaded) (w : world),
      dict_get "$ref" dct = Some v ->
      _as_ref_object dct w =
      (Ok (LRef (length (refobjs w))),
       alloc_refobj (mkRefObject v false JNull default_dereferencer) w)) /\
  (forall (members : list (string * json)) (v : json) (w : world),
      dict_get "$ref" members = Some v ->
      loadp (JObj members) w =
      (Ok (LRef (length (refobjs w))),
       alloc_refobj (mkRefObject (raw v) false JNull default_dereferencer) w)).
Proof.
  split; [|split].
  - apply RefObject_init_ok.
  - apply as_ref_object_ref.
  - apply loadp_ref.
Qed.


End LoaderFacts.

(** ** End to end *)

Section EndToEnd.
Context {U : Urllib} {R : Requests} {J : JsonLib} {N : Runtime}.

Lemma resolve_root_y : resolve_pointer root_document "/y" = Ok (JNum 7).
Proof.
  unfold resolve_pointer. rewrite parts_nonempty by discriminate.
  change (PyStr.lstrip "/" "/y") with "y".
  rewrite unquote_plain by reflexivity. reflexivity.
Qed.

Lemma loads_root (w : world) :
  json_loads root_text = Ok root_document ->
  loads root_text w =
  (Ok (LObj [("x", LRef (length (refobjs w))); ("y", LNum 7)]),
   alloc_refobj (mkRefObject (LStr "#/y") false JNull default_dereferencer) w).
Proof.
  intros Hparse. unfold loads, bind at 1. unfold lift. rewrite Hparse.
  unfold root_document. cbn [decode_text mapM fst snd].
  unfold bind, ret. cbn [fst snd].
  change (dict_of_pairs [("$ref", LStr "#/y")]) with [("$ref", LStr "#/y")].
  rewrite (as_ref_object_ref [("$ref", LStr "#/y")] (LStr "#/y") w eq_refl).
  reflexivity.
Qed.

(** C3 (amended). Loading the text gives the mapping with a proxy for
    ["#/y"] under ["x"] and 7 under ["y"]; the root document is not
    put in any store. Observing the proxy looks the empty URI up in
    the store of the default dereferencer: the observation sees 7
    when the root document has been stored there; when nothing is
    stored under the empty URI, the empty URI is requested from the
    web. *)
Theorem C3_root_reference_needs_the_root_in_the_store
        (A : Type) (func : json -> result A) (w : world) :
  json_loads root_text = Ok root_document ->
  urldefrag "#/y" = (EmptyString, "/y") ->
  let x := length (refobjs w) in
  let w1 := alloc_refobj (mkRefObject (LStr "#/y") false JNull default_dereferencer) w in
  loads root_text w = (Ok (LObj [("x", LRef x); ("y", LNum 7)]), w1) /\
  load root_text w = (Ok (LObj [("x", LRef x); ("y", LNum 7)]), w1) /\
  (get_store default_dereferencer w !! normalize EmptyString = Some root_document ->
   fst (dereferencing func x w1) = func (JNum 7) /\
   requests_log (snd (dereferencing func x w1)) = requests_log w) /\
  (get_store default_dereferencer w !! normalize EmptyString = None ->
   requests_log (snd (dereferencing func x w1)) = (requests_log w ++ [EmptyString])%list).
Proof.
  intros Hparse Hfrag x w1.
  pose proof (alloc_lookup (mkRefObject (LStr "#/y") false JNull default_dereferencer) w)
    as Hx. fold x w1 in Hx.
  pose proof (dereference_cases default_dereferencer "#/y"
                (snd (print ("dereferencing " +:+ "#/y") w1))) as Hc.
  rewrite Hfrag in Hc. cbn [fst snd] in Hc.
  change (get_store default_dereferencer (snd (print ("dereferencing " +:+ "#/y") w1)))
    with (get_store default_dereferencer w) in Hc.
  split; [apply loads_root, Hparse|]. split; [apply loads_root, Hparse|]. split.
  - intros Hstore. rewrite Hstore, resolve_root_y in Hc.
    destruct (dereferencing_first func x _ "#/y" (JNum 7) w1 _ Hx eq_refl eq_refl Hc)
      as [-> _].
    split; reflexivity.
  - intros Hstore. rewrite Hstore in Hc.
    change (requests_log (snd (print ("dereferencing " +:+ "#/y") w1)))
      with (requests_log w) in Hc.
    destruct (requests_get_json (requests_log w) EmptyString) as [document|e].
    + destruct (resolve_pointer document "/y") as [v|e] eqn:Hres.
      * destruct (dereferencing_first func x _ "#/y" v w1 _ Hx eq_refl eq_refl Hc)
          as [-> _].
        reflexivity.
      * destruct (dereferencing_first_fails func x _ "#/y" e w1 _ Hx eq_refl eq_refl Hc)
          as [-> _].
        reflexivity.
    + destruct (dereferencing_first_fails func x _ "#/y" e w1 _ Hx eq_refl eq_refl Hc)
        as [-> _].
      reflexivity.
Qed.

End EndToEnd.

(** ** More on the pointer walk *)

Section PointerMore.
Context {U : Urllib}.

Lemma split_nonempty (c : ascii) (s : string) : PyStr.split c s <> [].
Proof.
  destruct s as [|x s']; cbn [PyStr.split]; [discriminate|].
  destruct (Ascii.eqb x c); [discriminate|].
  destruct (PyStr.split c s'); discriminate.
Qed.

Lemma split_pieces_no_sep (c : ascii) (s : string) :
  Forall (fun piece => PyStr.has_char c piece = false) (PyStr.split c s).
Proof.
  induction s as [|x s' IH]; cbn [PyStr.split].
  - constructor; [reflexivity | constructor].
  - destruct (Ascii.eqb x c) eqn:Hx.
    + constructor; [reflexivity | exact IH].
    + destruct (PyStr.split c s') as [|piece pieces].
      * constructor; [|constructor]. cbn [PyStr.has_char]. rewrite Hx. reflexivity.
      * inversion IH as [|? ? Hpiece Hpieces]; subst.
        constructor; [|exact Hpieces].
        cbn [PyStr.has_char]. rewrite Hx, Hpiece. reflexivity.
Qed.

Lemma split_app (c : ascii) (a b : string) :
  PyStr.split c (a +:+ String c b) = (PyStr.split c a ++ PyStr.split c b)%list.
Proof.
  induction a as [|x a' IH]; simpl.
  - rewrite Ascii.eqb_refl. reflexivity.
  - destruct (Ascii.eqb x c); [rewrite IH; reflexivity|].
    rewrite IH. pose proof (split_nonempty c a') as Hne.
    destruct (PyStr.split c a') as [|piece pieces]; [congruence | reflexivity].
Qed.

Lemma has_char_app (c : ascii) (a b : string) :
  PyStr.has_char c (a +:+ b) = PyStr.has_char c a || PyStr.has_char c b.
Proof.
  induction a as [|x a' IH]; simpl; [reflexivity|].
  rewrite IH. apply orb_assoc.
Qed.

Lemma lstrip_no_slash_first (s : string) :
  PyStr.startswith "/" s = false -> PyStr.lstrip "/" s = s.
Proof.
  destruct s as [|x s']; [reflexivity|].
  cbn [PyStr.startswith PyStr.lstrip]. intros Hs.
  destruct (Ascii.eqb_spec x "/") as [->|Hx]; [|reflexivity].
  rewrite Ascii.eqb_refl in Hs. discriminate.
Qed.

Lemma parts_plain (s : string) :
  PyStr.has_char "%" s = false -> PyStr.startswith "/" s = false ->
  parts (String "/" s) = PyStr.split "/" s.
Proof.
  intros Hp Hs. rewrite parts_nonempty by discriminate.
  change (PyStr.lstrip "/" (String "/" s)) with (PyStr.lstrip "/" s).
  rewrite (lstrip_no_slash_first s Hs), (unquote_plain s Hp). reflexivity.
Qed.

Lemma reaches_app (document r : json) (before after : list string) :
  reaches document (before ++ after)%list r <->
  exists mid, reaches document before mid /\ reaches mid after r.
Proof.
  revert document. induction before as [|part rest IH]; intros document; cbn [app].
  - split.
    + intros Hr. exists document. split; [constructor | exact Hr].
    + intros (mid & Hm & Hr). inversion Hm; subst. exact Hr.
  - split.
    + inversion 1 as [|members p rs v r' Hget Hr]; subst.
      apply IH in Hr as (mid & Hm & Hr). exists mid.
      split; [econstructor; eassumption | exact Hr].
    + intros (mid & Hm & Hr). inversion Hm as [|members p rs v r' Hget Hm']; subst.
      econstructor; [exact Hget|]. apply IH. exists mid. split; assumption.
Qed.

Lemma dict_get_In {V} (key : string) (dct : list (string * V)) (v : V) :
  dict_get key dct = Some v -> exists k, In (k, v) dct.
Proof.
  induction dct as [|[k x] rest IH]; cbn [dict_get]; [discriminate|].
  destruct (String.eqb k key).
  - intros [= <-]. exists k. left. reflexivity.
  - intros Hget. destruct (IH Hget) as (k' & Hin). exists k'. right. exact Hin.
Qed.

Lemma reaches_subvalue (document r : json) (ps : list string) :
  reaches document ps r -> subvalue r document.
Proof.
  induction 1 as [|members part rest v r Hget _ IH]; [constructor|].
  destruct (dict_get_In _ _ _ Hget) as (k & Hin).
  econstructor; eassumption.
Qed.

(** X1. No token of a pointer contains ['/']: the pointer is decoded
    before it is split, so a slash written [%2F] separates tokens like
    any other slash. *)
Theorem X1_tokens_have_no_slash (pointer : string) :
  Forall (fun part => PyStr.has_char "/" part = false) (parts pointer).
Proof.
  destruct pointer as [|c rest]; [constructor|].
  rewrite parts_nonempty by discriminate. apply split_pieces_no_sep.
Qed.

(** X2. Pointers compose: for [a] and [b] without ['%'] and without a
    leading slash, [a] not empty, the pointer [/a/b] reaches a value in
    a document exactly when [/a] reaches some value in it and [/b]
    reaches that value from there. *)
Theorem X2_pointers_compose (document r : json) (a b : string) :
  a <> EmptyString ->
  PyStr.has_char "%" a = false -> PyStr.has_char "%" b = false ->
  PyStr.startswith "/" a = false -> PyStr.startswith "/" b = false ->
  resolve_pointer document (String "/" (a +:+ String "/" b)) = Ok r <->
  exists mid, resolve_pointer document (String "/" a) = Ok mid /\
              resolve_pointer mid (String "/" b) = Ok r.
Proof.
  intros Ha Hpa Hpb Hsa Hsb.
  assert (Hsab : PyStr.startswith "/" (a +:+ String "/" b) = false).
  { destruct a as [|x a']; [congruence | exact Hsa]. }
  assert (Hpab : PyStr.has_char "%" (a +:+ String "/" b) = false).
  { rewrite has_char_app. cbn [PyStr.has_char]. rewrite Hpa, Hpb. reflexivity. }
  unfold resolve_pointer.
  rewrite (parts_plain _ Hpab Hsab), (parts_plain a Hpa Hsa), (parts_plain b Hpb Hsb).
  rewrite split_app, walk_reaches, reaches_app.
  split; intros (mid & H1 & H2); exists mid; split; try (apply walk_reaches; assumption).
  - apply walk_reaches in H1. exact H1.
  - apply walk_reaches in H2. exact H2.
Qed.

(** X3. [resolve_pointer] builds nothing: the value it returns is the
    document itself or sits under its members. *)
Theorem X3_resolved_value_is_inside (document r : json) (pointer : string) :
  resolve_pointer document pointer = Ok r -> subvalue r document.
Proof.
  intros Hr. apply walk_reaches in Hr. eapply reaches_subvalue, Hr.
Qed.

End PointerMore.

(** ** More on the store and the dereferencer *)

Section StoreMore.
Context {U : Urllib} {R : Requests} {J : JsonLib} {N : Runtime}.

Lemma init_lookup_absent (seed : list (string * json)) (acc : gmap string json)
      (key : string) :
  ~ In key (map fst seed) ->
  fold_left (fun store kv => <[fst kv := snd kv]> store) seed acc !! key = acc !! key.
Proof.
  revert acc. induction seed as [|[k d] rest IH]; intros acc Hnot; cbn [fold_left];
    [reflexivity|].
  cbn [map fst In] in Hnot. rewrite IH by tauto.
  apply lookup_insert_ne. cbn [fst]. tauto.
Qed.

Lemma init_lookup_present (seed : list (string * json)) (acc : gmap string json)
      (key : string) (document : json) :
  List.NoDup (map fst seed) -> In (key, document) seed ->
  fold_left (fun store kv => <[fst kv := snd kv]> store) seed acc !! key = Some document.
Proof.
  revert acc. induction seed as [|[k d] rest IH]; intros acc Hnd Hin; [destruct Hin|].
  cbn [map fst] in Hnd. inversion Hnd as [|? ? Hk Hrest]; subst.
  cbn [fold_left]. destruct Hin as [[= -> ->]|Hin].
  - rewrite init_lookup_absent by exact Hk. apply lookup_insert_eq.
  - apply IH; assumption.
Qed.

Lemma get_store_new (seed : list (string * json)) (w : world) :
  get_store (length (dereferencers w)) (snd (Dereferencer_init seed w)) = URIDict_init seed.
Proof.
  unfold get_store, Dereferencer_init. cbn [snd dereferencers].
  rewrite list_lookup_middle by reflexivity. reflexivity.
Qed.



(** X6. A dereferencer built on a seed answers from the seed: when the
    seed (a dict, so without repeated keys) maps [key] to a document
    and the base of a URI normalizes to [key] itself, the URI is
    resolved in that document and nothing is requested or changed. *)
Theorem X6_seeded_key_in_normal_form_hits
        (seed : list (string * json)) (key full_uri : string) (document : json)
        (w : world) :
  List.NoDup (map fst seed) -> In (key, document) seed ->
  normalize (fst (urldefrag full_uri)) = key ->
  let d := length (dereferencers w) in
  let w' := snd (Dereferencer_init seed w) in
  fst (Dereferencer_init seed w) = Ok d /\
  Dereferencer_dereference d full_uri w' =
  (resolve_pointer document (snd (urldefrag full_uri)), w').
Proof.
  intros Hnd Hin Hkey d w'. split; [reflexivity|].
  rewrite dereference_cases. cbn zeta. subst d w'.
  rewrite get_store_new, Hkey. unfold URIDict_init.
  rewrite (init_lookup_present seed ∅ key document Hnd Hin). reflexivity.
Qed.

(** X7. A call of [dereference] on one dereferencer leaves the stores
    of the others, the heap of proxies and the output as they are, and
    makes at most one request, for the base of the URI. *)
Theorem X7_dereference_frame (self : nat) (full_uri : string) (w : world) :
  let w' := snd (Dereferencer_dereference self full_uri w) in
  (forall other, other <> self -> get_store other w' = get_store other w) /\
  refobjs w' = refobjs w /\ stdout w' = stdout w /\
  (requests_log w' = requests_log w \/
   requests_log w' = (requests_log w ++ [fst (urldefrag full_uri)])%list).
Proof.
  intros w'. subst w'. rewrite dereference_cases. cbn zeta.
  destruct (get_store self w !! _); [repeat split; auto|].
  destruct (requests_get_json _ _); cbn [snd]; repeat split; auto.
  intros other Hne. rewrite get_store_set_store, decide_False by congruence.
  reflexivity.
Qed.

(** X8. A request that fails is not remembered: the exception comes
    out of [dereference], no store changes, and the next call for the
    same URI asks the web again. *)
Theorem X8_failed_fetch_is_asked_again
        (self : nat) (full_uri : string) (w : world) (e : exn) :
  let uri := fst (urldefrag full_uri) in
  URIDict_contains (get_store self w) uri = Ok false ->
  requests_get_json (requests_log w) uri = Err e ->
  Dereferencer_dereference self full_uri w = (Err e, log_request uri w) /\
  dereferencers (log_request uri w) = dereferencers w /\
  requests_log (snd (Dereferencer_dereference self full_uri (log_request uri w)))
  = (requests_log w ++ [uri; uri])%list.
Proof.
  intros uri Hmiss Hfail. rewrite URIDict_contains_lookup in Hmiss.
  rewrite !dereference_cases. cbn zeta. fold uri.
  rewrite get_store_log_request.
  destruct (get_store self w !! normalize uri); [discriminate|].
  rewrite Hfail. repeat split.
  cbn [log_request requests_log].
  destruct (requests_get_json (requests_log w ++ [uri])%list uri);
    cbn [snd set_store log_request requests_log];
    rewrite <- app_assoc; reflexivity.
Qed.

(** X9. The document is stored before the pointer is looked at: after
    a request that succeeds the document is in the store under the
    base of the URI, whether or not the pointer resolves in it, and the
    outcome of the call is the outcome of the pointer in that
    document. *)
Theorem X9_fetched_document_is_kept
        (self : nat) (full_uri : string) (w : world) (document : json) :
  let uri := fst (urldefrag full_uri) in
  self < length (dereferencers w) ->
  URIDict_contains (get_store self w) uri = Ok false ->
  requests_get_json (requests_log w) uri = Ok document ->
  let out := Dereferencer_dereference self full_uri w in
  fst out = resolve_pointer document (snd (urldefrag full_uri)) /\
  URIDict_getitem (get_store self (snd out)) uri = Ok document /\
  requests_log (snd out) = (requests_log w ++ [uri])%list.
Proof.
  intros uri Hself Hmiss Hget out. subst out.
  rewrite URIDict_contains_lookup in Hmiss.
  rewrite dereference_cases. cbn zeta. fold uri.
  destruct (get_store self w !! normalize uri); [discriminate|].
  rewrite Hget. cbn [fst snd]. repeat split.
  unfold URIDict_getitem. rewrite get_store_set_store, decide_True by reflexivity.
  rewrite decide_True by exact Hself. rewrite lookup_insert_eq. reflexivity.
Qed.

(** X10. Asking twice gives the same answer: once a call of
    [dereference] found the document in the store or fetched it, the
    same call on the resulting state returns the same outcome (value
    or pointer error) and changes nothing. *)
Theorem X10_dereference_twice
        (self : nat) (full_uri : string) (w : world) :
  let uri := fst (urldefrag full_uri) in
  URIDict_contains (get_store self w) uri = Ok true \/
  (self < length (dereferencers w) /\
   exists document, requests_get_json (requests_log w) uri = Ok document) ->
  let out := Dereferencer_dereference self full_uri w in
  Dereferencer_dereference self full_uri (snd out) = (fst out, snd out).
Proof.
  intros uri Hpre out. subst out. rewrite URIDict_contains_lookup in Hpre.
  rewrite (dereference_cases self full_uri w). cbn zeta. fold uri.
  destruct (get_store self w !! normalize uri) as [document|] eqn:Hstore.
  - cbn [fst snd]. rewrite dereference_cases. cbn zeta. fold uri.
    rewrite Hstore. reflexivity.
  - destruct Hpre as [Hpre|(Hself & document & Hget)]; [discriminate|].
    rewrite Hget. cbn [fst snd]. rewrite dereference_cases. cbn zeta. fold uri.
    rewrite get_store_set_store, decide_True by reflexivity.
    rewrite decide_True by exact Hself. rewrite lookup_insert_eq. reflexivity.
Qed.

End StoreMore.

(** ** More on the proxy *)

Section ProxyMore.
Context {U : Urllib} {R : Requests} {J : JsonLib} {N : Runtime}.

Lemma dereferencing_heap {A} (func : json -> result A) (r r' : addr) (o : RefObject)
      (uri : string) (w : world) :
  refobjs w !! r = Some o -> ref o = LStr uri -> r' <> r ->
  refobjs (snd (dereferencing func r w)) !! r' = refobjs w !! r'.
Proof.
  intros Ho Hr Hne. destruct (dereferenced o) eqn:Hd.
  - rewrite (dereferencing_resolved func r o w Ho Hd). reflexivity.
  - pose proof (dereference_keeps_heap (dereferencer o) uri
                  (snd (print ("dereferencing " +:+ uri) w))) as [Hheap _].
    destruct (Dereferencer_dereference (dereferencer o) uri
                (snd (print ("dereferencing " +:+ uri) w))) as [[v|e] w1] eqn:Hderef;
      cbn [snd print refobjs] in Hheap.
    + destruct (dereferencing_first func r o uri v w w1 Ho Hd Hr Hderef) as [-> _].
      cbn [snd set_refobj refobjs].
      rewrite list_lookup_insert_ne by congruence. rewrite Hheap. reflexivity.
    + destruct (dereferencing_first_fails func r o uri e w w1 Ho Hd Hr Hderef) as [-> _].
      cbn [snd]. rewrite Hheap. reflexivity.
Qed.

(** X11. [RefObject.dereference] has no guard of its own: called on a
    proxy, resolved or not, it prints, asks the dereferencer and
    replaces whatever the proxy had cached by the new value. *)
Theorem X11_dereference_has_no_guard
        (r : addr) (o : RefObject) (uri : string) (v : json) (w w1 : world) :
  refobjs w !! r = Some o -> ref o = LStr uri ->
  Dereferencer_dereference (dereferencer o) uri
    (snd (print ("dereferencing " +:+ uri) w)) = (Ok v, w1) ->
  RefObject_dereference r w =
  (Ok tt, set_refobj r (mkRefObject (LStr uri) true v (dereferencer o)) w1) /\
  stdout w1 = (stdout w ++ ["dereferencing " +:+ uri])%list.
Proof.
  intros Ho Hr Hderef. split.
  - rewrite (RefObject_dereference_cases r o uri w Ho Hr), Hderef. reflexivity.
  - pose proof (dereference_keeps_heap (dereferencer o) uri
                  (snd (print ("dereferencing " +:+ uri) w))) as [_ Hout].
    rewrite Hderef in Hout. exact Hout.
Qed.

(** X12. Observing a proxy whose reference is a string, resolved or
    not, leaves every other proxy as it is. *)
Theorem X12_observation_leaves_other_proxies
        (A : Type) (func : json -> result A) (r r' : addr) (o : RefObject)
        (uri : string) (w : world) :
  refobjs w !! r = Some o -> ref o = LStr uri -> r' <> r ->
  refobjs (snd (dereferencing func r w)) !! r' = refobjs w !! r'.
Proof. apply dereferencing_heap. Qed.

(** X13. Two unresolved proxies on the same dereferencer whose
    references have the same base and different fragments: when the
    base document is not in the store and the request for it succeeds,
    observing one and then the other makes exactly one request, and
    each observation sees what its own pointer gives in that document. *)
Theorem X13_proxies_share_the_fetched_document
        (A B : Type) (f : json -> result A) (g : json -> result B)
        (r1 r2 : addr) (o1 o2 : RefObject) (u1 u2 base f1 f2 : string)
        (document : json) (w : world) :
  r1 <> r2 ->
  refobjs w !! r1 = Some o1 -> refobjs w !! r2 = Some o2 ->
  dereferenced o1 = false -> dereferenced o2 = false ->
  ref o1 = LStr u1 -> ref o2 = LStr u2 ->
  dereferencer o2 = dereferencer o1 ->
  dereferencer o1 < length (dereferencers w) ->
  urldefrag u1 = (base, f1) -> urldefrag u2 = (base, f2) ->
  URIDict_contains (get_store (dereferencer o1) w) base = Ok false ->
  requests_get_json (requests_log w) base = Ok document ->
  let out1 := dereferencing f r1 w in
  let out2 := dereferencing g r2 (snd out1) in
  fst out1 = rbind (resolve_pointer document f1) f /\
  fst out2 = rbind (resolve_pointer document f2) g /\
  requests_log (snd out2) = (requests_log w ++ [base])%list.
Proof.
  intros Hne Ho1 Ho2 Hd1 Hd2 Hr1 Hr2 Hsame Hself Hu1 Hu2 Hmiss Hget out1 out2.
  rewrite URIDict_contains_lookup in Hmiss.
  destruct (get_store (dereferencer o1) w !! normalize base) eqn:Hstore; [discriminate|].
  set (d := dereferencer o1) in *.
  set (w0 := snd (print ("dereferencing " +:+ u1) w)).
  set (wf := set_store d (<[normalize base := document]> (get_store d w0))
                       (log_request base w0)).
  assert (Hderef1 : Dereferencer_dereference d u1 w0 = (resolve_pointer document f1, wf)).
  { rewrite dereference_cases, Hu1. cbn [fst snd].
    change (get_store d w0) with (get_store d w). rewrite Hstore.
    change (requests_log w0) with (requests_log w). rewrite Hget. reflexivity. }
  assert (Hreq : forall w1, requests_log w1 = requests_log wf ->
                            get_store d w1 = get_store d wf ->
                            refobjs w1 !! r2 = Some o2 ->
                            fst (dereferencing g r2 w1) = rbind (resolve_pointer document f2) g /\
                            requests_log (snd (dereferencing g r2 w1))
                            = (requests_log w ++ [base])%list).
  { intros w1 Hlog Hst Hheap.
    assert (Hderef2 : Dereferencer_dereference (dereferencer o2) u2
                        (snd (print ("dereferencing " +:+ u2) w1))
                      = (resolve_pointer document f2,
                         snd (print ("dereferencing " +:+ u2) w1))).
    { rewrite dereference_cases, Hu2, Hsame. cbn [fst snd].
      change (get_store d (snd (print ("dereferencing " +:+ u2) w1)))
        with (get_store d w1).
      rewrite Hst. subst wf. rewrite get_store_set_store, decide_True by reflexivity.
      rewrite decide_True by exact Hself. rewrite lookup_insert_eq. reflexivity. }
    destruct (resolve_pointer document f2) as [v|e].
    - destruct (dereferencing_first g r2 o2 u2 v w1 _ Hheap Hd2 Hr2 Hderef2) as [-> _].
      split; [reflexivity|]. cbn [snd set_refobj print requests_log]. exact Hlog.
    - destruct (dereferencing_first_fails g r2 o2 u2 e w1 _ Hheap Hd2 Hr2 Hderef2)
        as [-> _].
      split; [reflexivity|]. cbn [snd print requests_log]. exact Hlog. }
  subst out2 out1.
  destruct (resolve_pointer document f1) as [v|e].
  - destruct (dereferencing_first f r1 o1 u1 v w wf Ho1 Hd1 Hr1 Hderef1) as [-> _].
    cbn [fst snd rbind]. split; [reflexivity|]. apply Hreq; try reflexivity.
    cbn [set_refobj refobjs]. rewrite list_lookup_insert_ne by exact Hne. exact Ho2.
  - destruct (dereferencing_first_fails f r1 o1 u1 e w wf Ho1 Hd1 Hr1 Hderef1) as [-> _].
    cbn [fst snd rbind]. split; [reflexivity|]. apply Hreq; try reflexivity. exact Ho2.
Qed.

End ProxyMore.

(** ** More on the loaders *)

Section LoaderMore.
Context {U : Urllib} {R : Requests} {J : JsonLib} {N : Runtime}.

Lemma mapM_ext {A B} (f g : A -> M B) (l : list A) :
  Forall (fun x => forall w, f x w = g x w) l ->
  forall w, mapM f l w = mapM g l w.
Proof.
  induction 1 as [|x rest Hx _ IH]; intros w; cbn [mapM]; [reflexivity|].
  unfold bind. rewrite Hx. destruct (g x w) as [[y|e] w1]; [|reflexivity].
  rewrite IH. reflexivity.
Qed.

Lemma mapM_pure {A B} (f : A -> M B) (h : A -> B) (l : list A) :
  Forall (fun x => forall w, f x w = (Ok (h x), w)) l ->
  forall w, mapM f l w = (Ok (map h l), w).
Proof.
  induction 1 as [|x rest Hx _ IH]; intros w; cbn [mapM map]; [reflexivity|].
  unfold bind. rewrite Hx, IH. reflexivity.
Qed.

Lemma existsb_false_Forall {A} (p : A -> bool) (l : list A) :
  existsb p l = false -> Forall (fun x => p x = false) l.
Proof.
  induction l as [|x rest IH]; cbn [existsb]; [constructor|].
  intros Hx. apply orb_false_iff in Hx as [Hx Hrest]. constructor; auto.
Qed.

Lemma forallb_true_Forall {A} (p : A -> bool) (l : list A) :
  forallb p l = true -> Forall (fun x => p x = true) l.
Proof.
  induction l as [|x rest IH]; cbn [forallb]; [constructor|].
  intros Hx. apply andb_true_iff in Hx as [Hx Hrest]. constructor; auto.
Qed.

Lemma Forall_mp {A} (P Q : A -> Prop) (l : list A) :
  Forall (fun x => P x -> Q x) l -> Forall P l -> Forall Q l.
Proof.
  induction 1 as [|x rest Hx _ IH]; inversion 1; subst; constructor; auto.
Qed.

Lemma dict_get_map_values {V W} (h : V -> W) (key : string) (dct : list (string * V)) :
  dict_get key (map (fun kv => (fst kv, h (snd kv))) dct) = option_map h (dict_get key dct).
Proof.
  induction dct as [|[k x] rest IH]; cbn [map dict_get fst snd]; [reflexivity|].
  destruct (String.eqb k key); [reflexivity | exact IH].
Qed.

Lemma dict_has_same_keys {V W} (key : string) (d1 : list (string * V))
      (d2 : list (string * W)) :
  map fst d1 = map fst d2 -> dict_has key d1 = dict_has key d2.
Proof.
  unfold dict_has. revert d2. induction d1 as [|[k x] rest IH]; intros [|[k' y] rest'];
    cbn [map fst dict_get]; try discriminate; [reflexivity|].
  intros [= <- Hrest]. destruct (String.eqb k key); [reflexivity | apply IH, Hrest].
Qed.

Lemma mapM_members_keys {V} (f : V -> M loaded) (members : list (string * V))
      (w w1 : world) (dct : list (string * loaded)) :
  mapM (fun kv => do x <- f (snd kv); ret (fst kv, x)) members w = (Ok dct, w1) ->
  map fst dct = map fst members.
Proof.
  revert w dct. induction members as [|[k x] rest IH]; intros w dct; cbn [mapM].
  - intros [= <- <-]. reflexivity.
  - unfold bind at 1 2. cbn [fst snd].
    destruct (f x w) as [[y|e] w2]; [|discriminate].
    unfold ret at 1. unfold bind at 1.
    destruct (mapM _ rest w2) as [[ys|e] w3] eqn:Hrest; [|discriminate].
    intros [= <- <-]. cbn [map fst]. f_equal. exact (IH w2 ys Hrest).
Qed.

(** On a document without references both loaders are the identity. *)
Lemma no_ref_identity (j : json) :
  has_ref j = false ->
  forall w, loadp j w = (Ok (raw j), w) /\
            decode_with_hook _as_ref_object j w = (Ok (raw j), w).
Proof.
  induction j as [| b | n | s | items IH | members IH] using json_nested_ind;
    intros Hno w; cbn [loadp decode_with_hook raw]; try (split; reflexivity).
  - cbn [has_ref] in Hno. apply existsb_false_Forall in Hno.
    pose proof (Forall_mp _ _ _ IH Hno) as Hall. unfold bind, ret. split.
    + rewrite (mapM_pure loadp raw items); [reflexivity|].
      eapply Forall_impl; [exact Hall|]. intros x Hx w0. apply Hx.
    + rewrite (mapM_pure (decode_with_hook _as_ref_object) raw items); [reflexivity|].
      eapply Forall_impl; [exact Hall|]. intros x Hx w0. apply Hx.
  - cbn [has_ref] in Hno. apply orb_false_iff in Hno as [Hkey Hno].
    apply existsb_false_Forall in Hno.
    pose proof (Forall_mp _ _ _ IH Hno) as Hall.
    assert (Hget : dict_get "$ref" members = None).
    { unfold dict_has in Hkey. destruct (dict_get "$ref" members); congruence. }
    rewrite Hget. split.
    + unfold bind at 1.
      rewrite (mapM_pure _ (fun kv => (fst kv, raw (snd kv))) members); [reflexivity|].
      eapply Forall_impl; [exact Hall|]. intros kv Hkv w0. unfold bind, ret.
      rewrite (proj1 (Hkv w0)). reflexivity.
    + unfold bind at 1.
      rewrite (mapM_pure _ (fun kv => (fst kv, raw (snd kv))) members).
      * unfold _as_ref_object. rewrite dict_get_map_values, Hget. reflexivity.
      * eapply Forall_impl; [exact Hall|]. intros kv Hkv w0. unfold bind, ret.
        rewrite (proj2 (Hkv w0)). reflexivity.
Qed.

Lemma keys_distinct_NoDup (keys : list string) :
  keys_distinct keys = true -> List.NoDup keys.
Proof.
  induction keys as [|k rest IH]; cbn [keys_distinct]; [constructor|].
  intros Hk. apply andb_true_iff in Hk as [Hk Hrest]. constructor; [|apply IH, Hrest].
  intros Hin. apply negb_true_iff in Hk.
  assert (Hex : existsb (String.eqb k) rest = true).
  { apply existsb_exists. exists k. split; [exact Hin | apply String.eqb_refl]. }
  congruence.
Qed.

Lemma dict_set_absent {V} (key : string) (v : V) (dct : list (string * V)) :
  ~ In key (map fst dct) -> dict_set key v dct = (dct ++ [(key, v)])%list.
Proof.
  induction dct as [|[a x] rest IH]; cbn [map fst In dict_set app]; [reflexivity|].
  intros Hnot. destruct (String.eqb_spec a key) as [->|Ha]; [tauto|].
  rewrite IH by tauto. reflexivity.
Qed.

Lemma dict_of_pairs_from_distinct {V} (pairs acc : list (string * V)) :
  List.NoDup (map fst (acc ++ pairs)) ->
  fold_left (fun dct kv => dict_set (fst kv) (snd kv) dct) pairs acc
  = (acc ++ pairs)%list.
Proof.
  revert acc. induction pairs as [|[k v] rest IH]; intros acc Hnd; cbn [fold_left fst snd].
  - rewrite app_nil_r. reflexivity.
  - rewrite dict_set_absent.
    + rewrite IH; rewrite <- app_assoc; [reflexivity | exact Hnd].
    + rewrite map_app in Hnd. cbn [map fst] in Hnd.
      apply List.NoDup_remove_2 in Hnd. intros Hin. apply Hnd.
      apply in_or_app. left. exact Hin.
Qed.

Lemma dict_of_pairs_distinct {V} (pairs : list (string * V)) :
  keys_distinct (map fst pairs) = true -> dict_of_pairs pairs = pairs.
Proof.
  intros Hk. unfold dict_of_pairs.
  rewrite dict_of_pairs_from_distinct; [reflexivity|].
  apply keys_distinct_NoDup, Hk.
Qed.

(** On a text that repeats no key the decoding of the text is the
    decoding of the document. *)
Lemma decode_text_no_repeat (hook : list (string * loaded) -> M loaded) (j : json) :
  no_repeated_key j = true ->
  forall w, decode_text hook j w = decode_with_hook hook j w.
Proof.
  induction j as [| b | n | s | items IH | members IH] using json_nested_ind;
    intros Hk w; cbn [decode_text decode_with_hook]; try reflexivity.
  - cbn [no_repeated_key] in Hk. apply forallb_true_Forall in Hk.
    unfold bind. rewrite (mapM_ext (decode_text hook) (decode_with_hook hook) items);
      [reflexivity|].
    eapply Forall_impl; [exact (Forall_mp _ _ _ IH Hk)|]. intros x Hx. exact Hx.
  - cbn [no_repeated_key] in Hk. apply andb_true_iff in Hk as [Hkeys Hk].
    apply forallb_true_Forall in Hk.
    unfold bind at 1. unfold bind at 2.
    rewrite (mapM_ext
               (fun kv => do v <- decode_text hook (snd kv); ret (fst kv, v))
               (fun kv => do v <- decode_with_hook hook (snd kv); ret (fst kv, v))
               members).
    + destruct (mapM _ members w) as [[dct|e] w1] eqn:Hmap; [|reflexivity].
      rewrite dict_of_pairs_distinct; [reflexivity|].
      rewrite (mapM_members_keys _ members w w1 dct Hmap). exact Hkeys.
    + eapply Forall_impl; [exact (Forall_mp _ _ _ IH Hk)|].
      intros kv Hkv w0. unfold bind. rewrite Hkv. reflexivity.
Qed.

Lemma mapM_still {A B} (f : A -> M B) (l : list A) :
  Forall (fun x => forall w, exists y, f x w = (Ok y, w)) l ->
  forall w, exists ys, mapM f l w = (Ok ys, w).
Proof.
  induction 1 as [|x rest Hx _ IH]; intros w; cbn [mapM].
  - exists []. reflexivity.
  - unfold bind, ret. destruct (Hx w) as (y & ->). destruct (IH w) as (ys & ->).
    exists (y :: ys). reflexivity.
Qed.

(** The text of a document without references is decoded without a
    change of state, repeated keys or not. *)
Lemma decode_text_no_ref (j : json) :
  has_ref j = false ->
  forall w, exists t, decode_text _as_ref_object j w = (Ok t, w).
Proof.
  induction j as [| b | n | s | items IH | members IH] using json_nested_ind;
    intros Hno w; cbn [decode_text]; try (unfold ret; eauto; fail).
  - cbn [has_ref] in Hno. apply existsb_false_Forall in Hno.
    destruct (mapM_still (decode_text _as_ref_object) items
                         (Forall_mp _ _ _ IH Hno) w) as (l & Hl).
    unfold bind, ret. rewrite Hl. eauto.
  - cbn [has_ref] in Hno. apply orb_false_iff in Hno as [Hkey Hno].
    apply existsb_false_Forall in Hno.
    assert (Hm : Forall (fun kv => forall w0, exists y,
                             (do v <- decode_text _as_ref_object (snd kv); ret (fst kv, v)) w0
                             = (Ok y, w0)) members).
    { eapply Forall_impl; [exact (Forall_mp _ _ _ IH Hno)|].
      intros kv Hkv w0. unfold bind, ret. destruct (Hkv w0) as (t & ->). eauto. }
    destruct (mapM_still
                (fun kv => do v <- decode_text _as_ref_object (snd kv); ret (fst kv, v))
                members Hm w) as (dct & Hmap).
    unfold bind at 1. rewrite Hmap. unfold _as_ref_object.
    pose proof (dict_has_of_pairs "$ref" dct) as Hhas.
    rewrite (dict_has_same_keys "$ref" dct members
               (mapM_members_keys _ members w w dct Hmap)), Hkey in Hhas.
    unfold dict_has in Hhas.
    destruct (dict_get "$ref" (dict_of_pairs dct)); [discriminate|].
    unfold ret. eauto.
Qed.

(** X14. A document in which no object has the key ["$ref"] is loaded
    as it is by [loadp], and loading it changes nothing. The same holds
    for [loads] on a text in which no object has that key: nothing
    changes, and when no object of the text repeats a key the tree
    returned is the document as it is. *)
Theorem X14_document_without_references (text : string) (j : json) (w : world) :
  has_ref j = false ->
  loadp j w = (Ok (raw j), w) /\
  (json_loads text = Ok j ->
   (exists t, loads text w = (Ok t, w)) /\
   (no_repeated_key j = true -> loads text w = (Ok (raw j), w))).
Proof.
  intros Hno. destruct (no_ref_identity j Hno w) as [Hp Hd]. split; [exact Hp|].
  intros Htext. unfold loads, bind, lift. rewrite Htext. split.
  - apply decode_text_no_ref, Hno.
  - intros Hk. rewrite (decode_text_no_repeat _as_ref_object j Hk w). exact Hd.
Qed.

Lemma grow_nil (w : world) : grow [] w = w.
Proof. destruct w. unfold grow. cbn. rewrite app_nil_r. reflexivity. Qed.

Lemma grow_grow (n1 n2 : list RefObject) (w : world) :
  grow n2 (grow n1 w) = grow (n1 ++ n2) w.
Proof. unfold grow. cbn. rewrite app_assoc. reflexivity. Qed.

Lemma allocates_ret {A} (x : A) : allocates (ret x).
Proof. intros w. exists x, []. rewrite grow_nil. split; [reflexivity | constructor]. Qed.

Lemma allocates_bind {A B} (m : M A) (k : A -> M B) :
  allocates m -> (forall x, allocates (k x)) -> allocates (bind m k).
Proof.
  intros Hm Hk w. destruct (Hm w) as (x & n1 & Hx & Hn1).
  destruct (Hk x (grow n1 w)) as (y & n2 & Hy & Hn2).
  exists y, (n1 ++ n2)%list. unfold bind. rewrite Hx, Hy, grow_grow.
  split; [reflexivity | apply Forall_app; split; assumption].
Qed.

Lemma allocates_mapM {A B} (f : A -> M B) (l : list A) :
  Forall (fun x => allocates (f x)) l -> allocates (mapM f l).
Proof.
  induction 1 as [|x rest Hx _ IH]; cbn [mapM]; [apply allocates_ret|].
  apply allocates_bind; [exact Hx|]. intros y.
  apply allocates_bind; [exact IH|]. intros ys. apply allocates_ret.
Qed.

Lemma allocates_init (v : loaded) :
  allocates (RefObject_init v "" default_dereferencer).
Proof.
  intros w. exists (length (refobjs w)), [mkRefObject v false JNull default_dereferencer].
  rewrite (RefObject_init_ok v "" default_dereferencer v w (urljoin_no_base v)).
  split; [reflexivity|]. constructor; [|constructor]. repeat split.
Qed.

Lemma allocates_as_ref_object (dct : list (string * loaded)) :
  allocates (_as_ref_object dct).
Proof.
  unfold _as_ref_object. destruct (dict_get "$ref" dct) as [v|].
  - apply allocates_bind; [apply allocates_init|]. intros r. apply allocates_ret.
  - apply allocates_ret.
Qed.

Lemma allocates_decode_text (j : json) : allocates (decode_text _as_ref_object j).
Proof.
  induction j as [| b | n | s | items IH | members IH] using json_nested_ind;
    cbn [decode_text]; try apply allocates_ret.
  - apply allocates_bind; [apply allocates_mapM, IH|]. intros l. apply allocates_ret.
  - apply allocates_bind; [|intros decoded; apply allocates_as_ref_object].
    apply allocates_mapM. eapply Forall_impl; [exact IH|]. intros kv Hkv.
    apply allocates_bind; [exact Hkv|]. intros v. apply allocates_ret.
Qed.

Lemma allocates_decode (j : json) : allocates (decode_with_hook _as_ref_object j).
Proof.
  induction j as [| b | n | s | items IH | members IH] using json_nested_ind;
    cbn [decode_with_hook]; try apply allocates_ret.
  - apply allocates_bind; [apply allocates_mapM, IH|]. intros l. apply allocates_ret.
  - apply allocates_bind; [|apply allocates_as_ref_object].
    apply allocates_mapM. eapply Forall_impl; [exact IH|]. intros kv Hkv.
    apply allocates_bind; [exact Hkv|]. intros v. apply allocates_ret.
Qed.

Lemma in_order_mapM {A B} (refs : B -> list addr) (f : A -> M B) (l : list A) :
  Forall (fun x => loads_in_order refs (f x)) l ->
  loads_in_order (flat_map refs) (mapM f l).
Proof.
  induction 1 as [|x rest Hx _ IH]; intros w; cbn [mapM].
  - exists [], []. unfold ret. rewrite grow_nil. repeat split. constructor.
  - destruct (Hx w) as (y & n1 & Hy & Hn1 & Hr1).
    destruct (IH (grow n1 w)) as (ys & n2 & Hys & Hn2 & Hr2).
    exists (y :: ys), (n1 ++ n2)%list. unfold bind, ret. rewrite Hy, Hys, grow_grow.
    split; [reflexivity|]. split; [apply Forall_app; split; assumption|].
    cbn [flat_map]. rewrite Hr1, Hr2. cbn [grow refobjs].
    rewrite !length_app, seq_app. reflexivity.
Qed.

Lemma loadp_in_order (j : json) : loads_in_order refs_of (loadp j).
Proof.
  induction j as [| b | n | s | items IH | members IH] using json_nested_ind;
    cbn [loadp];
    try (intros w; eexists _, []; unfold ret; rewrite grow_nil;
         repeat split; constructor).
  - intros w. destruct (in_order_mapM refs_of loadp items IH w)
      as (l & news & Hl & Hnews & Hrefs).
    exists (LArr l), news. unfold bind, ret. rewrite Hl. repeat split; assumption.
  - destruct (dict_get "$ref" members) as [v|].
    + intros w.
      exists (LRef (length (refobjs w))),
             [mkRefObject (raw v) false JNull default_dereferencer].
      unfold bind, ret.
      rewrite (RefObject_init_ok (raw v) "" default_dereferencer (raw v) w
                                 (urljoin_no_base (raw v))).
      split; [reflexivity|]. split; [|reflexivity].
      constructor; [|constructor]. repeat split.
    + intros w.
      assert (Hm : Forall (fun kv => loads_in_order (fun p => refs_of (snd p))
                                       (do v <- loadp (snd kv); ret (fst kv, v)))
                          members).
      { eapply Forall_impl; [exact IH|]. intros kv Hkv w0.
        destruct (Hkv w0) as (t & news & Ht & Hnews & Hrefs).
        exists (fst kv, t), news. unfold bind, ret. rewrite Ht.
        repeat split; assumption. }
      destruct (in_order_mapM _ _ members Hm w) as (l & news & Hl & Hnews & Hrefs).
      exists (LObj l), news. unfold bind at 1. rewrite Hl. repeat split; assumption.
Qed.

(** X15. Loading never dereferences: [loadp] and the hook-driven
    decoding, of a document and of the objects of a text, always return
    a tree, leave every store, the output and the request log as they
    are, keep the proxies already on the heap, and only add proxies
    that are unresolved, have nothing cached and use the default
    dereferencer. *)
Theorem X15_loaders_only_allocate (j : json) (w : world) :
  (exists (t : loaded) (news : list RefObject),
      loadp j w = (Ok t, grow news w) /\ Forall fresh_proxy news) /\
  (exists (t : loaded) (news : list RefObject),
      decode_with_hook _as_ref_object j w = (Ok t, grow news w) /\
      Forall fresh_proxy news) /\
  (exists (t : loaded) (news : list RefObject),
      decode_text _as_ref_object j w = (Ok t, grow news w) /\
      Forall fresh_proxy news).
Proof.
  split; [|split].
  - destruct (loadp_in_order j w) as (t & news & Ht & Hnews & _). eauto.
  - apply allocates_decode.
  - apply allocates_decode_text.
Qed.

(** X16. [loadp] loses no proxy and shares none: the proxies of the
    tree it returns, read from left to right, are exactly the
    addresses it added to the heap, in order. *)
Theorem X16_loadp_proxies_in_order (j : json) (w : world) :
  exists (t : loaded) (news : list RefObject),
    loadp j w = (Ok t, grow news w) /\
    refs_of t = seq (length (refobjs w)) (length news).
Proof.
  destruct (loadp_in_order j w) as (t & news & Ht & _ & Hrefs). eauto.
Qed.

Lemma hook_and_loadp_agree (j : json) (w : world) :
  flat_refs j = true ->
  decode_with_hook _as_ref_object j w = loadp j w.
Proof.
  revert w.
  induction j as [| b | n | s | items IH | members IH] using json_nested_ind;
    intros w Hflat; cbn [loadp decode_with_hook]; try reflexivity.
  - cbn [flat_refs] in Hflat. apply forallb_true_Forall in Hflat.
    unfold bind. rewrite (mapM_ext (decode_with_hook _as_ref_object) loadp items);
      [reflexivity|].
    eapply Forall_impl; [exact (Forall_mp _ _ _
      (Forall_impl _ _ _ IH (fun x Hx Hf w0 => Hx w0 Hf)) Hflat)|].
    intros x Hx. exact Hx.
  - cbn [flat_refs] in Hflat. unfold dict_has in Hflat.
    destruct (dict_get "$ref" members) as [v|] eqn:Hget.
    + apply negb_true_iff, existsb_false_Forall in Hflat.
      unfold bind at 1.
      rewrite (mapM_pure _ (fun kv => (fst kv, raw (snd kv))) members).
      * unfold _as_ref_object. rewrite dict_get_map_values, Hget. reflexivity.
      * eapply Forall_impl; [exact Hflat|]. intros kv Hkv w0. unfold bind, ret.
        rewrite (proj2 (no_ref_identity (snd kv) Hkv w0)). reflexivity.
    + apply forallb_true_Forall in Hflat.
      unfold bind at 1. unfold bind at 2.
      rewrite (mapM_ext
                 (fun kv => do v <- decode_with_hook _as_ref_object (snd kv); ret (fst kv, v))
                 (fun kv => do v <- loadp (snd kv); ret (fst kv, v)) members).
      * destruct (mapM _ members w) as [[dct|e] w1] eqn:Hmap; [|reflexivity].
        unfold _as_ref_object.
        pose proof (dict_has_same_keys "$ref" dct members
                      (mapM_members_keys loadp members w w1 dct Hmap)) as Hkeys.
        unfold dict_has in Hkeys. rewrite Hget in Hkeys.
        destruct (dict_get "$ref" dct); [discriminate | reflexivity].
      * eapply Forall_impl; [exact (Forall_mp _ _ _
          (Forall_impl _ _ _ IH (fun kv Hkv Hf w0 => Hkv w0 Hf)) Hflat)|].
        intros kv Hkv w0. unfold bind. rewrite Hkv. reflexivity.
Qed.

(** X17. The two entry points agree on a document in which no object
    with the key ["$ref"] has another such object under its members:
    decoding with the hook and [loadp] return the same tree and leave
    the same state; so does the decoding of a text that reads as such a
    document and repeats no key. *)
Theorem X17_hook_and_loadp_agree (j : json) (w : world) :
  flat_refs j = true ->
  decode_with_hook _as_ref_object j w = loadp j w /\
  (no_repeated_key j = true -> decode_text _as_ref_object j w = loadp j w).
Proof.
  intros Hflat. split; [apply hook_and_loadp_agree, Hflat|].
  intros Hk. rewrite (decode_text_no_repeat _as_ref_object j Hk w).
  apply hook_and_loadp_agree, Hflat.
Qed.

End LoaderMore.

(** ** Runs on the sample libraries *)

Section Runs.
#[local] Existing Instance Sample.urllib.
#[local] Existing Instance Sample.requests.
#[local] Existing Instance Sample.jsonlib.
#[local] Existing Instance Sample.runtime.

(** What the sample reader makes of the text of the end-to-end claim. *)
Lemma sample_reads_root : json_loads root_text = Ok root_document.
Proof. vm_compute. reflexivity. Qed.

(** C1, counterexample. On the array [[10, 20]] the pointer ["/0"]
    would give 10 if the token were read as an index; the code raises
    [LookupError], and [TypeError] when the array holds the string
    ["0"]. *)
Lemma C1_array_token_is_not_an_index :
  Spec.walk (JArr [JNum 10; JNum 20]) (parts "/0") = Some (JNum 10) /\
  resolve_pointer (JArr [JNum 10; JNum 20]) "/0" = Err (LookupError "/0") /\
  resolve_pointer (JArr [JStr "0"; JNum 20]) "/0" = Err TypeError.
Proof. repeat split; vm_compute; reflexivity. Qed.

(** C6, counterexample. ["//a"] has the single token ["a"] in the
    code and the tokens [""] and ["a"] when one slash is stripped;
    ["%2Fa"] has the tokens [""] and ["a"] in the code and the single
    token ["a"] when decoding comes first. The values reached differ. *)
Lemma C6_all_slashes_stripped_before_decoding :
  let document := JObj [("", JObj [("a", JNum 1)]); ("a", JNum 2)] in
  parts "//a" = ["a"] /\ Spec.tokens "//a" = [""; "a"] /\
  parts "%2Fa" = [""; "a"] /\ Spec.tokens "%2Fa" = ["a"] /\
  resolve_pointer document "//a" = Ok (JNum 2) /\
  Spec.walk document (Spec.tokens "//a") = Some (JNum 1) /\
  resolve_pointer document "%2Fa" = Ok (JNum 1) /\
  Spec.walk document (Spec.tokens "%2Fa") = Some (JNum 2).
Proof. repeat split; vm_compute; reflexivity. Qed.

(** C8, counterexample. Indexing into a number raises [TypeError],
    and so does an array that holds the token; and two walks that
    fail at different segments (["z"], then ["c"]) raise the same
    [LookupError], which names the pointer only. *)
Lemma C8_type_error_and_no_segment :
  resolve_pointer (JNum 7) "/a" = Err TypeError /\
  resolve_pointer (JObj [("a", JArr [JStr "5"])]) "/a/5" = Err TypeError /\
  resolve_pointer (JObj [("a", JObj [])]) "/a/z/c" = Err (LookupError "/a/z/c") /\
  resolve_pointer (JObj [("a", JObj [("z", JObj [])])]) "/a/z/c"
  = Err (LookupError "/a/z/c").
Proof. repeat split; vm_compute; reflexivity. Qed.

(** C2, counterexample. A proxy for ["#/y"] in the initial world: the
    dereference fails (nothing is stored under the empty URI and the
    web has nothing there), the proxy stays unresolved, and the second
    observation calls the dereferencer again. Both counters read 2.
    A proxy for [http://example.com/doc#/missing]: the document is
    fetched once, the pointer fails in it, and the second observation
    calls the dereferencer again. *)
Lemma C2_failed_dereference_is_repeated :
  let w0 := snd (RefObject_init (LStr "#/y") "" default_dereferencer initial_world) in
  let out := observations [see; see] 0 w0 in
  let uri := "http://example.com/doc#/missing" in
  let w0' := snd (RefObject_init (LStr uri) "" default_dereferencer initial_world) in
  let out' := observations [see; see] 0 w0' in
  stdout w0 = [] /\ requests_log w0 = [] /\
  fst out = [Err RequestError; Err RequestError] /\
  stdout (snd out) = ["dereferencing #/y"; "dereferencing #/y"] /\
  requests_log (snd out) = [""; ""] /\
  refobjs (snd out) !! 0 = Some (mkRefObject (LStr "#/y") false JNull 0) /\
  fst out' = [Err (LookupError "/missing"); Err (LookupError "/missing")] /\
  stdout (snd out') = ["dereferencing " +:+ uri; "dereferencing " +:+ uri] /\
  requests_log (snd out') = ["http://example.com/doc"].
Proof. repeat split; vm_compute; reflexivity. Qed.

(** C3, counterexample. The text is loaded in the initial world and
    [result["x"]] is observed: the empty URI is requested, the request
    fails, and the observation raises instead of giving 7. *)
Lemma C3_fresh_load_then_observe_fails :
  let loaded_root := loads root_text initial_world in
  let out := dereferencing see 0 (snd loaded_root) in
  fst loaded_root = Ok (LObj [("x", LRef 0); ("y", LNum 7)]) /\
  dereferencers (snd loaded_root) = [∅] /\
  fst out = Err RequestError /\
  fst out <> Ok (JNum 7) /\
  requests_log (snd out) = [""].
Proof. repeat split; try (vm_compute; reflexivity). vm_compute. discriminate. Qed.

(** C5, the failing input. [Dereferencer(store={K: served})] with
    [K = "HTTP://example.com/doc"], then [dereference(K)]: the key is
    in the dict as given, the lookup goes by the normalized text, the
    store answers no, and the URI is requested although its document
    was supplied. *)
Lemma C5_seeded_key_is_not_normalized :
  let key := "HTTP://example.com/doc" in
  let made := Dereferencer_init [(key, Sample.served)] initial_world in
  let out := Dereferencer_dereference 1 key (snd made) in
  fst made = Ok 1 /\
  get_store 1 (snd made) !! key = Some Sample.served /\
  normalize key = "http://example.com/doc" /\
  URIDict_contains (get_store 1 (snd made)) key = Ok false /\
  requests_log (snd made) = [] /\
  requests_log (snd out) = [key].
Proof. repeat split; vm_compute; reflexivity. Qed.

(** C9, counterexample. The document at
    [http://example.com/schemas/a.json] holds [{"$ref": "#/defs/n"}]:
    joined with the location of the document the reference is
    [http://example.com/schemas/a.json#/defs/n], the proxy built by
    either loader keeps ["#/defs/n"]. *)
Lemma C9_loader_ignores_document_location :
  let base := "http://example.com/schemas/a.json" in
  let document := JObj [("$ref", JStr "#/defs/n")] in
  refobjs (snd (Spec.as_ref_object base [("$ref", LStr "#/defs/n")] initial_world)) !! 0
  = Some (mkRefObject (LStr "http://example.com/schemas/a.json#/defs/n") false JNull 0) /\
  refobjs (snd (loadp document initial_world)) !! 0
  = Some (mkRefObject (LStr "#/defs/n") false JNull 0) /\
  refobjs (snd (decode_with_hook _as_ref_object document initial_world)) !! 0
  = Some (mkRefObject (LStr "#/defs/n") false JNull 0).
Proof. repeat split; vm_compute; reflexivity. Qed.

(** Witness of C6: two leading slashes before ["a"]. *)
Lemma C6_witness :
  parts "//a" = PyStr.split "/" (unquote "a") /\
  parts "//a" = ["a"].
Proof.
  split.
  - apply (proj2 (proj2 C6_tokens_strip_all_then_decode) 2 "a").
    + reflexivity.
    + discriminate.
  - vm_compute. reflexivity.
Defined.

(** Witness of C7: the keys ["c/d"] and ["e~f"]. *)
Lemma C7_witness :
  let members := [("c/d", JNum 1); ("e~f", JNum 2)] in
  resolve_pointer (JObj members) "/c~1d" = Ok (JNum 1) /\
  resolve_pointer (JObj members) "/e~0f" = Ok (JNum 2).
Proof.
  intros members. split.
  - apply (proj2 (proj2 (C7_escaped_key_addressable members "c/d" (JNum 1)
                           eq_refl eq_refl))).
  - apply (proj2 (proj2 (C7_escaped_key_addressable members "e~f" (JNum 2)
                           eq_refl eq_refl))).
Defined.

(** Witness of C8: [{"a": {"b": 42}}] and the pointer ["/a/z"]. *)
Lemma C8_witness :
  resolve_pointer (JObj [("a", JObj [("b", JNum 42)])]) "/a/z"
  = Err (LookupError "/a/z").
Proof.
  refine (proj1 (proj2 (C8_failing_step (JObj [("a", JObj [("b", JNum 42)])]) "/a/z"
                          ["a"] "z" [] (JObj [("b", JNum 42)]) _ _))
                [("b", JNum 42)] _ _).
  - vm_compute. reflexivity.
  - apply (reaches_key [("a", JObj [("b", JNum 42)])] "a" [] (JObj [("b", JNum 42)])).
    + vm_compute. reflexivity.
    + apply reaches_here.
  - reflexivity.
  - vm_compute. reflexivity.
Defined.

(** Witness of C4: two fragments of [http://example.com/doc], on a
    store that starts empty. *)
Lemma C4_witness :
  requests_log
    (snd (Dereferencer_dereference 0 "http://example.com/doc#/c"
            (snd (Dereferencer_dereference 0 "http://example.com/doc#/a/b"
                    initial_world))))
  = ["http://example.com/doc"].
Proof.
  apply (proj2 (proj2 C4_store_append_only_one_fetch) 0
               "http://example.com/doc#/a/b" "http://example.com/doc#/c"
               "http://example.com/doc" "/a/b" "/c" initial_world Sample.served).
  - vm_compute. lia.
  - vm_compute. reflexivity.
  - vm_compute. reflexivity.
  - vm_compute. reflexivity.
  - vm_compute. reflexivity.
Defined.

(** Witness of C2: a proxy for [http://example.com/doc#/a/b], observed
    three times. *)
Lemma C2_witness :
  let uri := "http://example.com/doc#/a/b" in
  let w0 := snd (RefObject_init (LStr uri) "" default_dereferencer initial_world) in
  let out := observations [see; see; see] 0 w0 in
  fst out = [Ok (JNum 42); Ok (JNum 42); Ok (JNum 42)] /\
  stdout (snd out) = ["dereferencing http://example.com/doc#/a/b"].
Proof.
  intros uri w0 out.
  pose (o := mkRefObject (LStr uri) false JNull default_dereferencer).
  pose (w1 := snd (Dereferencer_dereference default_dereferencer uri
                     (snd (print ("dereferencing " +:+ uri) w0)))).
  assert (Hderef : Dereferencer_dereference (dereferencer o) uri
                     (snd (print ("dereferencing " +:+ uri) w0)) = (Ok (JNum 42), w1))
    by (vm_compute; reflexivity).
  destruct (proj1 (proj2 C2_lazy_memoized_when_dereference_succeeds) json see [see; see]
                  0 o uri (JNum 42) w0 w1 eq_refl eq_refl eq_refl Hderef)
    as (Hobs & Hout & _).
  subst out. rewrite Hobs. split; [reflexivity | exact Hout].
Defined.

(** Witness of C3: the root document stored under the empty URI. *)
Lemma C3_witness :
  let w := set_store default_dereferencer {[ EmptyString := root_document ]} initial_world in
  let loaded_root := loads root_text w in
  fst loaded_root = Ok (LObj [("x", LRef 0); ("y", LNum 7)]) /\
  fst (dereferencing see 0 (snd loaded_root)) = Ok (JNum 7).
Proof.
  intros w loaded_root.
  assert (Hparse : json_loads root_text = Ok root_document) by (vm_compute; reflexivity).
  assert (Hfrag : urldefrag "#/y" = (EmptyString, "/y")) by (vm_compute; reflexivity).
  destruct (C3_root_reference_needs_the_root_in_the_store json see w Hparse Hfrag)
    as (Hloads & _ & Hseen & _).
  subst loaded_root. rewrite Hloads. split; [reflexivity|].
  apply Hseen. vm_compute. reflexivity.
Defined.

(** Witness of C9: [{"$ref": "b.json"}] through both loaders. *)
Lemma C9_witness :
  let w := initial_world in
  let kept := mkRefObject (LStr "b.json") false JNull default_dereferencer in
  _as_ref_object [("$ref", LStr "b.json")] w = (Ok (LRef 0), alloc_refobj kept w) /\
  loadp (JObj [("$ref", JStr "b.json")]) w = (Ok (LRef 0), alloc_refobj kept w).
Proof.
  intros w kept. split.
  - apply (proj1 (proj2 C9_loader_refs_are_not_joined)
                 [("$ref", LStr "b.json")] (LStr "b.json") w).
    reflexivity.
  - apply (proj2 (proj2 C9_loader_refs_are_not_joined)
                 [("$ref", JStr "b.json")] (JStr "b.json") w).
    reflexivity.
Defined.


End Runs.

(** ** More runs on the sample libraries *)

Section MoreRuns.
#[local] Existing Instance Sample.urllib.
#[local] Existing Instance Sample.requests.
#[local] Existing Instance Sample.jsonlib.
#[local] Existing Instance Sample.runtime.

(** Witness of X2: [/a/b] in [{"a": {"b": 42}}]. *)
Lemma X2_witness :
  let document := JObj [("a", JObj [("b", JNum 42)])] in
  resolve_pointer document "/a/b" = Ok (JNum 42) <->
  exists mid, resolve_pointer document "/a" = Ok mid /\
              resolve_pointer mid "/b" = Ok (JNum 42).
Proof.
  intros document.
  apply (X2_pointers_compose document (JNum 42) "a" "b").
  - discriminate.
  - reflexivity.
  - reflexivity.
  - reflexivity.
  - reflexivity.
Defined.

(** Witness of X3: the value reached by [/a/b]. *)
Lemma X3_witness :
  subvalue (JNum 42) (JObj [("a", JObj [("b", JNum 42)])]).
Proof.
  apply (X3_resolved_value_is_inside (JObj [("a", JObj [("b", JNum 42)])])
                                     (JNum 42) "/a/b").
  vm_compute. reflexivity.
Defined.



(** Witness of X6: a seed with the key in normal form. *)
Lemma X6_witness :
  let seed := [("http://example.com/doc", Sample.served)] in
  let out := Dereferencer_dereference 1 "HTTP://example.com/doc#/a/b"
               (snd (Dereferencer_init seed initial_world)) in
  fst out = Ok (JNum 42) /\ requests_log (snd out) = [].
Proof.
  intros seed out.
  assert (Hnd : List.NoDup (map fst seed)).
  { constructor; [intros [] | constructor]. }
  assert (Hkey : normalize (fst (urldefrag "HTTP://example.com/doc#/a/b"))
                 = "http://example.com/doc") by (vm_compute; reflexivity).
  destruct (X6_seeded_key_in_normal_form_hits seed "http://example.com/doc"
              "HTTP://example.com/doc#/a/b" Sample.served initial_world Hnd
              (or_introl eq_refl) Hkey) as [_ Hd].
  subst out. cbn [initial_world dereferencers length] in Hd. rewrite Hd.
  split; vm_compute; reflexivity.
Defined.

(** Witness of X7: a dereference that fetches. *)
Lemma X7_witness :
  let w' := snd (Dereferencer_dereference 0 "http://example.com/doc#/a/b" initial_world) in
  (forall other, other <> 0 -> get_store other w' = get_store other initial_world) /\
  refobjs w' = refobjs initial_world /\ stdout w' = stdout initial_world /\
  (requests_log w' = requests_log initial_world \/
   requests_log w' =
   (requests_log initial_world ++ [fst (urldefrag "http://example.com/doc#/a/b")])%list).
Proof.
  exact (X7_dereference_frame 0 "http://example.com/doc#/a/b" initial_world).
Defined.

(** Witness of X8: a URI the sample web does not serve. *)
Lemma X8_witness :
  let full_uri := "http://example.com/none#/a" in
  fst (Dereferencer_dereference 0 full_uri initial_world) = Err RequestError /\
  requests_log
    (snd (Dereferencer_dereference 0 full_uri
            (snd (Dereferencer_dereference 0 full_uri initial_world))))
  = ["http://example.com/none"; "http://example.com/none"].
Proof.
  intros full_uri.
  destruct (X8_failed_fetch_is_asked_again 0 full_uri initial_world RequestError)
    as (H1 & _ & H2).
  - vm_compute. reflexivity.
  - vm_compute. reflexivity.
  - rewrite H1. cbn [fst snd]. split; [reflexivity | exact H2].
Defined.

(** Witness of X9: the document is fetched and the pointer fails. *)
Lemma X9_witness :
  let out := Dereferencer_dereference 0 "http://example.com/doc#/missing" initial_world in
  fst out = Err (LookupError "/missing") /\
  URIDict_getitem (get_store 0 (snd out)) "http://example.com/doc" = Ok Sample.served.
Proof.
  intros out.
  destruct (X9_fetched_document_is_kept 0 "http://example.com/doc#/missing"
              initial_world Sample.served) as (H1 & H2 & _).
  - vm_compute. lia.
  - vm_compute. reflexivity.
  - vm_compute. reflexivity.
  - subst out. split; [rewrite H1; vm_compute; reflexivity | exact H2].
Defined.

(** Witness of X10: the same URI dereferenced twice. *)
Lemma X10_witness :
  let out := Dereferencer_dereference 0 "http://example.com/doc#/a/b" initial_world in
  Dereferencer_dereference 0 "http://example.com/doc#/a/b" (snd out) = (fst out, snd out).
Proof.
  apply (X10_dereference_twice 0 "http://example.com/doc#/a/b" initial_world).
  right. split.
  - vm_compute. lia.
  - exists Sample.served. vm_compute. reflexivity.
Defined.

(** Witness of X11: a resolved proxy that holds 0 is dereferenced. *)
Lemma X11_witness :
  let uri := "http://example.com/doc#/a/b" in
  let w := alloc_refobj (mkRefObject (LStr uri) true (JNum 0) 0) initial_world in
  let out := RefObject_dereference 0 w in
  fst out = Ok tt /\
  refobjs (snd out) !! 0 = Some (mkRefObject (LStr uri) true (JNum 42) 0) /\
  stdout (snd out) = ["dereferencing http://example.com/doc#/a/b"].
Proof.
  intros uri w out.
  pose (w1 := snd (Dereferencer_dereference 0 uri
                     (snd (print ("dereferencing " +:+ uri) w)))).
  assert (Hderef : Dereferencer_dereference
                     (dereferencer (mkRefObject (LStr uri) true (JNum 0) 0)) uri
                     (snd (print ("dereferencing " +:+ uri) w)) = (Ok (JNum 42), w1))
    by (vm_compute; reflexivity).
  destruct (X11_dereference_has_no_guard 0 _ uri (JNum 42) w w1 eq_refl eq_refl Hderef)
    as [H1 H2].
  subst out. rewrite H1. cbn [fst snd set_refobj stdout].
  split; [reflexivity|]. split; [vm_compute; reflexivity | exact H2].
Defined.

(** Witness of X12: two proxies, the first one observed. *)
Lemma X12_witness :
  let o := mkRefObject (LStr "http://example.com/doc#/a/b") false JNull 0 in
  let w := alloc_refobj (mkRefObject (LStr "#/b") false JNull 0)
             (alloc_refobj o initial_world) in
  refobjs (snd (dereferencing see 0 w)) !! 1 = refobjs w !! 1.
Proof.
  intros o w.
  apply (X12_observation_leaves_other_proxies json see 0 1 o
                                              "http://example.com/doc#/a/b" w).
  - reflexivity.
  - reflexivity.
  - discriminate.
Defined.

(** Witness of X13: two references into [http://example.com/doc]. *)
Lemma X13_witness :
  let o1 := mkRefObject (LStr "http://example.com/doc#/a/b") false JNull 0 in
  let o2 := mkRefObject (LStr "http://example.com/doc#/c") false JNull 0 in
  let w := alloc_refobj o2 (alloc_refobj o1 initial_world) in
  let out1 := dereferencing see 0 w in
  let out2 := dereferencing see 1 (snd out1) in
  fst out1 = Ok (JNum 42) /\
  fst out2 = Ok (JArr [JNum 1; JNum 2]) /\
  requests_log (snd out2) = ["http://example.com/doc"].
Proof.
  intros o1 o2 w out1 out2.
  destruct (X13_proxies_share_the_fetched_document json json see see 0 1 o1 o2
              "http://example.com/doc#/a/b" "http://example.com/doc#/c"
              "http://example.com/doc" "/a/b" "/c" Sample.served w)
    as (H1 & H2 & H3); try reflexivity.
  - discriminate.
  - vm_compute. lia.
  - subst out2 out1. rewrite H1, H2.
    split; [vm_compute; reflexivity|]. split; [vm_compute; reflexivity | exact H3].
Defined.

(** Witness of X14: a document without references. *)
Lemma X14_witness :
  let j := JObj [("a", JArr [JNum 1; JObj [("b", JNull)]])] in
  loadp j initial_world = (Ok (raw j), initial_world).
Proof.
  intros j. apply (proj1 (X14_document_without_references EmptyString j initial_world
                            eq_refl)).
Defined.

(** Witness of X17: a reference with a sibling, next to an array. *)
Lemma X17_witness :
  let j := JObj [("p", JObj [("$ref", JStr "#/a"); ("title", JStr "t")]);
                 ("q", JArr [JNum 1])] in
  decode_with_hook _as_ref_object j initial_world = loadp j initial_world.
Proof.
  intros j. apply (proj1 (X17_hook_and_loadp_agree j initial_world eq_refl)).
Defined.

(** A text that repeats a key: the hook runs on the object under the
    first ["a"] and builds a proxy, the dict keeps the second value,
    and the proxy is on the heap without being in the tree. *)
Lemma loads_repeated_key_run :
  let text := "{" +:+ quoted "a" +:+ ": {" +:+ quoted "$ref" +:+ ": " +:+ quoted "x"
              +:+ "}, " +:+ quoted "a" +:+ ": 1}" in
  json_loads text = Ok (JObj [("a", JObj [("$ref", JStr "x")]); ("a", JNum 1)]) /\
  fst (loads text initial_world) = Ok (LObj [("a", LNum 1)]) /\
  refobjs (snd (loads text initial_world)) = [mkRefObject (LStr "x") false JNull 0].
Proof. repeat split; vm_compute; reflexivity. Qed.

End MoreRuns.
